(** * Carry-forward: the line transformer of src/main.ts

    A shallow embedding of [copyForwardLines], [genID] and [validateRegex],
    and of the JavaScript string and regular-expression primitives they are
    written with.

    - Strings are [string]s; a character stands for a UTF-16 code unit
      below 256.  The regular expression literals of the source only look
      at single code units ([\s], [.], [[a-zA-Z0-9-]], literal characters),
      so the [u] flag of [blockIDRegex] makes no difference on them.
    - Every regular expression literal of the source is a term of [regex],
      run by a backtracking matcher that follows the ECMAScript semantics:
      leftmost match, greedy and lazy quantifiers, empty iterations
      rejected, captures, and the [$]-patterns of replacement strings.
    - The services of the environment are the fields of the class [Host]:
      the regular-expression compiler applied to the user's pattern,
      Obsidian's [generateMarkdownLink], and the random source behind
      [Math.random].  An exception thrown by the compiler inside the loop
      is a [Throw]; the effects of a call are its [Outcome]. *)

From Stdlib Require Import String Ascii List Bool Arith ZArith Lia.
Import ListNotations.

Local Open Scope list_scope.
Local Open Scope string_scope.
Local Open Scope nat_scope.

(* ================================================================== *)
(** ** JavaScript strings *)

Module JsString.

(** [s.slice(0, n)] for [0 <= n]. *)
Fixpoint take (n : nat) (s : string) : string :=
  match n, s with
  | S n', String c t => String c (take n' t)
  | _, _ => ""
  end.

(** [s.slice(n)] for [0 <= n]. *)
Fixpoint drop (n : nat) (s : string) : string :=
  match n, s with
  | S n', String _ t => drop n' t
  | _, _ => s
  end.

(** Relative index of [String.prototype.slice]: negative counts from the
    end, and the result is clamped to [0 .. len]. *)
Definition clamp (len : nat) (i : Z) : nat :=
  if (i <? 0)%Z then Z.to_nat (Z.max (Z.of_nat len + i) 0)
  else Nat.min (Z.to_nat i) len.

(** [s.slice(start, end)]. *)
Definition slice (s : string) (start end_ : Z) : string :=
  let len := String.length s in
  let from := clamp len start in
  let to := clamp len end_ in
  take (to - from) (drop from s).

(** [s[k]], [None] standing for [undefined]. *)
Definition at_ (s : string) (k : nat) : option ascii := String.get k s.

(** [lines.join(sep)]. *)
Definition join (sep : string) (l : list string) : string := String.concat sep l.

(** Every character of [s] satisfies [p]. *)
Fixpoint all (p : ascii -> bool) (s : string) : bool :=
  match s with
  | "" => true
  | String c t => p c && all p t
  end.

(** [s.includes(c)] for a single character. *)
Fixpoint has (c : ascii) (s : string) : bool :=
  match s with
  | "" => false
  | String a t => Ascii.eqb a c || has c t
  end.

(** The last character of [s], if any. *)
Fixpoint last (s : string) : option ascii :=
  match s with
  | "" => None
  | String c "" => Some c
  | String _ t => last t
  end.

(** [s.trimEnd()] over the white space [space]: [s] without its trailing
    white space. *)
Fixpoint trimEndOf (space : ascii -> bool) (s : string) : string :=
  match s with
  | "" => ""
  | String c t => if all space s then "" else String c (trimEndOf space t)
  end.

(** [hay.includes(needle)]. *)
Fixpoint includes (hay needle : string) : bool :=
  String.prefix needle hay
  || match hay with
     | "" => false
     | String _ t => includes t needle
     end.

(** [s.trimStart()] over the white space [space]. *)
Fixpoint trimStartOf (space : ascii -> bool) (s : string) : string :=
  match s with
  | "" => ""
  | String c t => if space c then trimStartOf space t else s
  end.

(** [s] does not end with a character of [p]. *)
Definition endsOutside (p : ascii -> bool) (s : string) : Prop :=
  match last s with
  | Some c => p c = false
  | None => True
  end.

(** [s] read backwards, as the list of its characters. *)
Fixpoint rev_onto (s : string) (acc : list ascii) : list ascii :=
  match s with
  | "" => acc
  | String c t => rev_onto t (c :: acc)
  end.

End JsString.

(* ================================================================== *)
(** ** Character classes *)

Module CharClass.

Definition code (c : ascii) : nat := nat_of_ascii c.

Definition between (lo hi : nat) (c : ascii) : bool :=
  (lo <=? code c) && (code c <=? hi).

(** [\s]: TAB, LF, VT, FF, CR, SPACE and NBSP are the white space and
    line terminator code units below 256. *)
Definition space (c : ascii) : bool :=
  between 9 13 c || (code c =? 32) || (code c =? 160).

(** [.] without the [s] flag: anything but a line terminator. *)
Definition dot (c : ascii) : bool :=
  negb ((code c =? 10) || (code c =? 13)).

(** [[a-zA-Z0-9-]]. *)
Definition blockIdChar (c : ascii) : bool :=
  between 97 122 c || between 65 90 c || between 48 57 c || (code c =? 45).

(** [[\s^]]: a caret that is not the first character of a class is an
    ordinary member of it. *)
Definition spaceOrCaret (c : ascii) : bool :=
  space c || (code c =? 94).

(** The characters [genID] draws from: lowercase letters, digits and the
    hyphen. *)
Definition idAlphabet (c : ascii) : bool :=
  between 97 122 c || between 48 57 c || (code c =? 45).

(** [[0-9]]. *)
Definition digit (c : ascii) : bool := between 48 57 c.

Definition digitValue (c : ascii) : nat := code c - 48.

End CharClass.

(* ================================================================== *)
(** ** Regular expressions *)

Module RegExp.

Import JsString.

(** The syntax used by the literals of the source. *)
Inductive regex : Type :=
| Empty
| Lit (c : ascii)
| Class (p : ascii -> bool)
| Seq (r1 r2 : regex)
| Star (greedy : bool) (r : regex)
| Opt (r : regex)
| Group (n : nat) (r : regex)
| Bol
| Eol
| Behind (p : ascii -> bool).

(** [r+] *)
Definition Plus (r : regex) : regex := Seq r (Star true r).

(** A literal run of characters. *)
Fixpoint Lits (s : string) : regex :=
  match s with
  | "" => Empty
  | String c t => Seq (Lit c) (Lits t)
  end.

Fixpoint groupCount (r : regex) : nat :=
  match r with
  | Seq r1 r2 => Nat.max (groupCount r1) (groupCount r2)
  | Star _ r1 | Opt r1 => groupCount r1
  | Group n r1 => Nat.max n (groupCount r1)
  | _ => 0
  end.

Definition Captures := list (option string).

(** Result of a successful run: what is left of the input, and the
    captures. *)
Definition Final := (string * Captures)%type.

(** A continuation receives the characters already passed (last one
    first), the rest of the input and the captures. *)
Definition Cont := list ascii -> string -> Captures -> option Final.

Definition orElse (a b : option Final) : option Final :=
  match a with
  | Some _ => a
  | None => b
  end.

Fixpoint setCapture (n : nat) (v : string) (c : Captures) : Captures :=
  match n, c with
  | _, [] => []
  | 0, x :: c' => x :: c'
  | 1, _ :: c' => Some v :: c'
  | S n', x :: c' => x :: setCapture n' v c'
  end.

(** RepeatMatcher for [r*] and [r*?], [body] being the matcher of [r]:
    another iteration is attempted only if it consumes something, so an
    input of [n] characters admits at most [n] iterations, which is the
    [fuel] the loop is started with. *)
Fixpoint starLoop (body : list ascii -> string -> Captures -> Cont -> option Final)
         (greedy : bool) (k : Cont)
         (fuel : nat) (seen : list ascii) (s : string) (caps : Captures)
         {struct fuel} : option Final :=
  match fuel with
  | 0 => k seen s caps
  | S fuel' =>
      let again :=
        body seen s caps
             (fun seen' s' caps' =>
                if String.length s' <? String.length s
                then starLoop body greedy k fuel' seen' s' caps'
                else None) in
      if greedy then orElse again (k seen s caps)
      else orElse (k seen s caps) again
  end.

(** The backtracking matcher. *)
Fixpoint run (r : regex) (seen : list ascii) (s : string) (caps : Captures)
         (k : Cont) {struct r} : option Final :=
  match r with
  | Empty => k seen s caps
  | Lit c =>
      match s with
      | String a t => if Ascii.eqb a c then k (a :: seen) t caps else None
      | "" => None
      end
  | Class p =>
      match s with
      | String a t => if p a then k (a :: seen) t caps else None
      | "" => None
      end
  | Seq r1 r2 =>
      run r1 seen s caps (fun seen' s' caps' => run r2 seen' s' caps' k)
  | Star greedy r1 =>
      starLoop (run r1) greedy k (String.length s) seen s caps
  | Opt r1 =>
      orElse
        (run r1 seen s caps
             (fun seen' s' caps' =>
                if String.length s' <? String.length s
                then k seen' s' caps'
                else None))
        (k seen s caps)
  | Group n r1 =>
      run r1 seen s caps
          (fun seen' s' caps' =>
             k seen' s'
               (setCapture n (take (String.length s - String.length s') s) caps'))
  | Bol =>
      match seen with
      | [] => k seen s caps
      | _ :: _ => None
      end
  | Eol =>
      match s with
      | "" => k seen s caps
      | String _ _ => None
      end
  | Behind p =>
      match seen with
      | a :: _ => if p a then k seen s caps else None
      | [] => None
      end
  end.

(** What [RegExp.prototype.exec] returns: the match array with its
    [index] and [groups] properties. *)
Record MatchResult : Type := mkMatch {
  index : nat;
  matched : string;
  captures : Captures;
  groups : option (list (string * option string))
}.

(** A compiled regular expression without the [g] and [y] flags, seen
    through [exec]. *)
Definition Matcher := string -> option MatchResult.

Definition accept : Cont := fun _ s caps => Some (s, caps).

(** RegExpBuiltinExec with [lastIndex = 0]: the first position at which
    the pattern matches. *)
Fixpoint search (r : regex) (seen : list ascii) (s : string) (i : nat)
  : option MatchResult :=
  match run r seen s (repeat None (groupCount r)) accept with
  | Some (s', caps) =>
      Some (mkMatch i (take (String.length s - String.length s') s) caps None)
  | None =>
      match s with
      | "" => None
      | String a t => search r (a :: seen) t (S i)
      end
  end.

Definition exec (r : regex) : Matcher := fun s => search r [] s 0.

(** [s.match(re)] for a regular expression without the [g] flag. *)
Definition match_ (s : string) (re : Matcher) : option MatchResult := re s.

(** [`${m}`] for a match array [m]: its elements joined by commas, an
    [undefined] capture giving the empty string. *)
Definition toString (m : MatchResult) : string :=
  join "," (matched m :: map (fun c => match c with Some v => v | None => "" end)
                             (captures m)).

Section GetSubstitution.

Variable m : MatchResult.
Variable str : string.

Definition capture (n : nat) : string :=
  match nth_error (captures m) (n - 1) with
  | Some (Some v) => v
  | _ => ""
  end.

Fixpoint namedCapture (name : string) (g : list (string * option string)) : string :=
  match g with
  | [] => ""
  | (n, v) :: g' =>
      if String.eqb n name then match v with Some x => x | None => "" end
      else namedCapture name g'
  end.

Definition isChar (c : ascii) (x : ascii) : bool := Ascii.eqb x c.

(** GetSubstitution(matched, str, position, captures, namedCaptures,
    template).  [name = Some acc] while the characters of a group name
    are being read, which happens only once a closing [>] is known to
    follow. *)
Fixpoint GetSubstitution (name : option string) (t : string) {struct t} : string :=
  match t with
  | "" => ""
  | String c t1 =>
      match name with
      | Some acc =>
          if isChar ">" c
          then match groups m with
               | Some g => namedCapture acc g
               | None => ""
               end ++ GetSubstitution None t1
          else GetSubstitution (Some (acc ++ String c "")) t1
      | None =>
          if isChar "$" c then
            match t1 with
            | "" => "$"
            | String d t2 =>
                if isChar "$" d then "$" ++ GetSubstitution None t2
                else if isChar "&" d then matched m ++ GetSubstitution None t2
                else if isChar "`" d then take (index m) str ++ GetSubstitution None t2
                else if isChar "'" d then
                  drop (Nat.min (index m + String.length (matched m)) (String.length str)) str
                  ++ GetSubstitution None t2
                else if isChar "<" d then
                  match groups m with
                  | Some _ =>
                      if has ">" t2 then GetSubstitution (Some "") t2
                      else "$<" ++ GetSubstitution None t2
                  | None => "$<" ++ GetSubstitution None t2
                  end
                else if CharClass.digit d then
                  let count := List.length (captures m) in
                  let one := CharClass.digitValue d in
                  let single :=
                    (if (1 <=? one) && (one <=? count) then capture one
                     else String "$" (String d ""))
                    ++ GetSubstitution None t2 in
                  match t2 with
                  | String e t3 =>
                      if CharClass.digit e then
                        let two := 10 * one + CharClass.digitValue e in
                        if count <? two then single
                        else (if 1 <=? two then capture two
                              else String "$" (String d (String e "")))
                             ++ GetSubstitution None t3
                      else single
                  | "" => single
                  end
                else "$" ++ GetSubstitution None t1
            end
          else String c (GetSubstitution None t1)
      end
  end.

End GetSubstitution.

(** [s.replace(re, replacement)] for a regular expression without the
    [g] flag and a string replacement: the first match, if any, gives
    way to the expansion of the replacement template. *)
Definition replace (s : string) (re : Matcher) (replacement : string) : string :=
  match re s with
  | None => s
  | Some m =>
      let position := Nat.min (index m) (String.length s) in
      take position s
      ++ GetSubstitution m s None replacement
      ++ drop (position + String.length (matched m)) s
  end.

End RegExp.

(* ================================================================== *)
(** ** The plugin *)

Module CarryForward.

Import JsString RegExp.

Definition LF : string := String (ascii_of_nat 10) "".
Definition DQUOTE : string := String (ascii_of_nat 34) "".

Record CarryForwardPluginSettings : Type := mkSettings {
  linkText : string;
  copiedLinkText : string;
  lineFormatFrom : string;
  lineFormatTo : string;
  removeLeadingWhitespace : bool
}.

Definition DEFAULT_SETTINGS : CarryForwardPluginSettings := {|
  linkText := "";
  copiedLinkText := "(see {{LINK}})";
  lineFormatFrom := "\s*$";
  lineFormatTo := " (see {{LINK}})";
  removeLeadingWhitespace := true
|}.

Inductive CopyTypes : Type :=
| SeparateLines
| CombinedLines
| LinkOnly
| LinkOnlyEmbed.

Definition isSeparateLines (copy : CopyTypes) : bool :=
  match copy with SeparateLines => true | _ => false end.

Definition isLinkOnly (copy : CopyTypes) : bool :=
  match copy with LinkOnly => true | _ => false end.

Definition isLinkOnlyEmbed (copy : CopyTypes) : bool :=
  match copy with LinkOnlyEmbed => true | _ => false end.

(** What the plugin asks of its environment. *)
Class Host : Type := {
  (** the file of the view *)
  TFile : Type;
  (** the state of the random source *)
  Rng : Type;
  (** [new RegExp(source, "u")]: the compiled expression, or the thrown
      SyntaxError turned into a string *)
  newRegExp : string -> string + Matcher;
  (** [app.fileManager.generateMarkdownLink(file, sourcePath, subpath, alias)] *)
  generateMarkdownLink : TFile -> string -> string -> string -> string;
  (** [Math.floor(Math.random() * n)] *)
  randomIndex : Rng -> nat -> nat * Rng
}.

Record EditorPosition : Type := mkPos { line : nat; ch : nat }.

Record Editor : Type := mkEditor {
  cursorFrom : EditorPosition;   (* getCursor("from") *)
  cursorTo : EditorPosition;     (* getCursor("to") *)
  getLine : nat -> string
}.

Record EditorChange : Type := mkChange {
  from : EditorPosition;
  to : EditorPosition;
  text : string
}.

Record EditorTransaction : Type := mkTransaction {
  changes : list EditorChange;
  selection : EditorPosition * EditorPosition
}.

(** *** Regular expression literals of the source *)

(** [/^\s*/] *)
Definition leadingSpace : regex := Seq Bol (Star true (Class CharClass.space)).

(** [/^\s*$/] *)
Definition blankLine : regex :=
  Seq Bol (Seq (Star true (Class CharClass.space)) Eol).

(** [/(?<=[\s^])\^[a-zA-Z0-9-]+$/u] *)
Definition blockIDRegex : regex :=
  Seq (Behind CharClass.spaceOrCaret)
      (Seq (Lit "^") (Seq (Plus (Class CharClass.blockIdChar)) Eol)).

(** [/\s*?$/] *)
Definition trailingSpace : regex := Seq (Star false (Class CharClass.space)) Eol.

(** [/{{LINK(G)}}/] with the group [G = \|?.*]: an optional bar, then
    anything up to the last [}}] of the line. *)
Definition linkPlaceholder : regex :=
  Seq (Lits "{{LINK")
      (Seq (Group 1 (Seq (Opt (Lit "|")) (Star true (Class CharClass.dot))))
           (Lits "}}")).

(** [/]]$/] *)
Definition closingBrackets : regex := Seq (Lits "]]") Eol.

(** *** genID *)

Definition characters : string := "abcdefghijklmnopqrstuvwxyz-0123456789".

(** [id += characters[k]]: an index outside the string reads [undefined],
    which [+=] appends as text. *)
Definition appendCharacter (id : string) (k : nat) : string :=
  id ++ match at_ characters k with
        | Some c => String c ""
        | None => "undefined"
        end.

(** A statement either completes with a value or throws. *)
Inductive Completion (A : Type) : Type :=
| Normal (a : A)
| Throw (e : string).

Arguments Normal {A} a.
Arguments Throw {A} e.

Definition bind {A B : Type} (c : Completion A) (f : A -> Completion B)
  : Completion B :=
  match c with
  | Normal a => f a
  | Throw e => Throw e
  end.

Section WithHost.

Context {host : Host}.

(** The [while (id.length < length)] loop; every turn makes [id]
    longer, so [length] turns are enough. *)
Fixpoint genIDLoop (fuel length : nat) (id : string) (g : Rng) : string * Rng :=
  if String.length id <? length then
    match fuel with
    | 0 => (id, g)
    | S fuel' =>
        let (k, g') := randomIndex g (String.length characters) in
        genIDLoop fuel' length (appendCharacter id k) g'
    end
  else (id, g).

Definition genID (length : nat) (g : Rng) : string * Rng :=
  let (id, g') := genIDLoop length length "" g in
  (slice id 0 (Z.of_nat length), g').

(** *** validateRegex *)

(** [s.replace(/\\x/g, y)] for a letter [x] and a character [y]: every
    backslash followed by [x] gives way to [y], from left to right. *)
Fixpoint unescape (x y : ascii) (s : string) : string :=
  match s with
  | "" => ""
  | String a t =>
      if Ascii.eqb a "\" then
        match t with
        | String b t' =>
            if Ascii.eqb b x then String y (unescape x y t')
            else String a (unescape x y t)
        | "" => String a ""
        end
      else String a (unescape x y t)
  end.

Record RegexValidation : Type := mkValidation {
  valid : bool;
  string_ : string
}.

Definition updatedRegexString (regexString : string) : string :=
  unescape "r" (ascii_of_nat 13)
    (unescape "t" (ascii_of_nat 9)
       (unescape "n" (ascii_of_nat 10) regexString)).

Definition validateRegex (regexString : string) : RegexValidation :=
  let updated := updatedRegexString regexString in
  match newRegExp updated with
  | inr _ => mkValidation true updated
  | inl e =>
      mkValidation false
        (DQUOTE ++ updated ++ DQUOTE ++ ": " ++ DQUOTE ++ e ++ DQUOTE)
  end.

(** *** copyForwardLines *)

(** The variables the loop assigns, and the random source. *)
Record LoopState : Type := mkLoop {
  updatedLines : list string;
  copiedLines : list string;
  newID : string;
  rng : Rng
}.

(** What a call does to its environment.  The Notice [Copied], shown once
    the promise of [writeText] resolves, and the draws of the random source
    that precede an exception are not recorded. *)
Inductive Outcome : Type :=
| Rejected (message : string) (timeout : Z)
    (* the Notice of the validation failure, then [return] *)
| Raised (e : string)
    (* an exception leaves the loop: nothing after it runs *)
| Applied (clipboard : string) (transaction : EditorTransaction) (g : Rng).
    (* [clipboard.writeText] and [editor.transaction] *)

(** The template literal made of [link] without its final [\]\]], then
    [$1\]\]]. *)
Definition linkReplacement (link : string) : string :=
  replace link (exec closingBrackets) "" ++ "$1]]".

(** [template.replace(linkPlaceholder, linkReplacement)], the expression
    applied to [copiedLinkText] and to [lineFormatTo]. *)
Definition fillPlaceholder (template link : string) : string :=
  replace template (exec linkPlaceholder) (linkReplacement link).

Variable editor : Editor.
Variable file : TFile.
Variable settings : CarryForwardPluginSettings.
Variable copy : CopyTypes.

Definition minLine : nat := line (cursorFrom editor).
Definition maxLine : nat := line (cursorTo editor).

Definition sameColumn : bool := ch (cursorFrom editor) =? ch (cursorTo editor).

(** Lines 77-92: the text of line [lineNumber] that is copied. *)
Definition copySlice (lineNumber : nat) : string :=
  let line := getLine editor lineNumber in
  let copiedLine := line in
  let copiedLine :=
    if removeLeadingWhitespace settings && ((lineNumber =? minLine) && sameColumn)
    then replace copiedLine (exec leadingSpace) ""
    else copiedLine in
  if ((lineNumber =? minLine) || (lineNumber =? maxLine))
     && negb ((minLine =? maxLine) && sameColumn)
  then slice line
             (if lineNumber =? minLine then Z.of_nat (ch (cursorFrom editor)) else 0%Z)
             (if lineNumber =? maxLine then Z.of_nat (ch (cursorTo editor))
              else (Z.of_nat (String.length line) - 1)%Z)
  else copiedLine.

(** Lines 94-97: the guard of the early [continue]. *)
Definition passesThrough (lineNumber : nat) : bool :=
  match match_ (getLine editor lineNumber) (exec blankLine) with
  | Some _ => true
  | None => false
  end
  && negb ((lineNumber =? minLine) && (minLine =? maxLine)).

(** Lines 117-128 and 137-150: the copied text once the link is known;
    [strip] tells whether the block ID is first removed from the copy. *)
Definition copiedText (strip : bool) (link copiedLine : string)
  : Completion string :=
  if isLinkOnly copy || isLinkOnlyEmbed copy then
    let link := (if isLinkOnlyEmbed copy then "!" else "") ++ link in
    Normal (if isLinkOnlyEmbed copy then link
            else fillPlaceholder (copiedLinkText settings) link)
  else
    let copiedLine :=
      if strip then replace copiedLine (exec blockIDRegex) "" else copiedLine in
    match newRegExp (lineFormatFrom settings) with
    | inl e => Throw e
    | inr re =>
        Normal (replace copiedLine re (fillPlaceholder (lineFormatTo settings) link))
    end.

(** Lines 103-152: the line, its copy, [newID] and the random source
    after the block that looks for a block ID. *)
Definition linkStep (line copiedLine newID : string) (g : Rng)
  : Completion (string * string * string * Rng) :=
  match match_ line (exec blockIDRegex) with
  | None =>
      let (id, g') := genID 5 g in
      let newID := "^" ++ id in
      let link :=
        generateMarkdownLink file "/" ("#" ++ newID) (linkText settings) in
      let line := replace line (exec trailingSpace) (" " ++ newID) in
      bind (copiedText false link copiedLine)
           (fun copiedLine => Normal (line, copiedLine, newID, g'))
  | Some blockID =>
      let link :=
        generateMarkdownLink file "/" ("#" ++ toString blockID) (linkText settings) in
      bind (copiedText true link copiedLine)
           (fun copiedLine => Normal (line, copiedLine, newID, g))
  end.

(** The body of the [for] loop. *)
Definition forLine (lineNumber : nat) (st : LoopState) : Completion LoopState :=
  let line := getLine editor lineNumber in
  let copiedLine := copySlice lineNumber in
  if passesThrough lineNumber then
    Normal (mkLoop (updatedLines st ++ [line])%list
                   (copiedLines st ++ [copiedLine])%list
                   (newID st) (rng st))
  else
    bind (if isSeparateLines copy || (lineNumber =? minLine)
          then linkStep line copiedLine (newID st) (rng st)
          else Normal (line, copiedLine, newID st, rng st))
         (fun '(line, copiedLine, newID, g) =>
            Normal (mkLoop (updatedLines st ++ [line])%list
                           (if negb ((isLinkOnly copy || isLinkOnlyEmbed copy)
                                     && negb (lineNumber =? minLine))
                            then (copiedLines st ++ [copiedLine])%list
                            else copiedLines st)
                           newID g)).

(** [for (lineNumber = ...; lineNumber <= maxLine; lineNumber++)], with
    [count] the number of turns left. *)
Fixpoint forLines (count lineNumber : nat) (st : LoopState) : Completion LoopState :=
  match count with
  | 0 => Normal st
  | S count' => bind (forLine lineNumber st) (forLines count' (S lineNumber))
  end.

Definition invalidNotice (validation : RegexValidation) : string :=
  "Error: 'From' setting is invalid:" ++ LF ++ LF ++ string_ validation
  ++ LF ++ LF ++ "Please update the Carry-Forward settings and try again.".

Definition copyForwardLines (g : Rng) : Outcome :=
  let regexValidation := validateRegex (lineFormatFrom settings) in
  if negb (valid regexValidation) then
    Rejected (invalidNotice regexValidation) (1000 * 30)%Z
  else
    match forLines (maxLine + 1 - minLine) minLine (mkLoop [] [] "" g) with
    | Throw e => Raised e
    | Normal st =>
        Applied
          (join LF (copiedLines st))
          (mkTransaction
             [mkChange (mkPos minLine 0)
                       (mkPos maxLine (String.length (getLine editor maxLine)))
                       (join LF (updatedLines st))]
             (cursorFrom editor, cursorTo editor))
          (rng st)
    end.

(** *** Vocabulary of the properties *)

(** The texts handed to [navigator.clipboard.writeText]. *)
Definition clipboardWrites (o : Outcome) : list string :=
  match o with
  | Applied clipboard _ _ => [clipboard]
  | _ => []
  end.

(** The transactions handed to [editor.transaction]. *)
Definition transactions (o : Outcome) : list EditorTransaction :=
  match o with
  | Applied _ transaction _ => [transaction]
  | _ => []
  end.

(** [updated] is [original] with its trailing white space replaced by a
    space and a block ID of five characters of the alphabet of
    [genID]. *)
Definition Minted (original updated : string) : Prop :=
  exists body ws id,
    original = body ++ ws
    /\ all CharClass.space ws = true
    /\ endsOutside CharClass.space body
    /\ updated = body ++ " ^" ++ id
    /\ String.length id = 5
    /\ all CharClass.idAlphabet id = true.

(** [copied] is what the loop body makes of the copy slice of line
    [lineNumber]: the slice itself for a blank line that passes through
    and for a line that gets no link, the text of [copiedText] for some
    link otherwise. *)
Definition CopyOf (lineNumber : nat) (copied : string) : Prop :=
  if passesThrough lineNumber
     || negb (isSeparateLines copy || (lineNumber =? minLine))
  then copied = copySlice lineNumber
  else exists strip link,
         copiedText strip link (copySlice lineNumber) = Normal copied.

(** The configured pattern compiles, as it is written and as
    [validateRegex] rewrites it. *)
Definition PatternCompiles : Prop :=
  (exists re, newRegExp (lineFormatFrom settings) = inr re)
  /\ valid (validateRegex (lineFormatFrom settings)) = true.

(** The second property of the specification, as it is worded: no
    selected line's block ID shows up in the text that is copied.  The
    block ID is looked for as it stands in its line, after the character
    that precedes it, so that the link, which names the block ID after a
    [#], does not count as an occurrence. *)
Definition AnchorsStayOut (g : Rng) : Prop :=
  forall lineNumber blockID,
    minLine <= lineNumber <= maxLine ->
    match_ (getLine editor lineNumber) (exec blockIDRegex) = Some blockID ->
    exists clipboard transaction g',
      copyForwardLines g = Applied clipboard transaction g'
      /\ includes clipboard (drop (index blockID - 1) (getLine editor lineNumber))
         = false.

End WithHost.

End CarryForward.

(* ================================================================== *)
(** ** A deterministic host *)

Module TestHost.

Import JsString RegExp CarryForward.

(** [/\s*$/u], the default [lineFormatFrom]. *)
Definition defaultFrom : regex := Seq (Star true (Class CharClass.space)) Eol.

(** A compiler that knows the default pattern, and the unterminated
    class of the specification's example. *)
Definition compile (source : string) : string + Matcher :=
  if String.eqb source "\s*$" then inr (exec defaultFrom)
  else if String.eqb source "[abc" then
    inl "SyntaxError: Invalid regular expression: /[abc/u: Unterminated character class"
  else inl ("SyntaxError: Invalid regular expression: /" ++ source ++ "/u").

(** Wikilinks to the note called [file]. *)
Definition wikilink (file sourcePath subpath alias : string) : string :=
  "[[" ++ file ++ subpath
  ++ (if String.eqb alias "" then "" else "|" ++ alias) ++ "]]".

(** The random source counts: 0, 1, 2, ... *)
Definition counter (g n : nat) : nat * nat := (g mod n, S g).

#[export] Instance host : Host := {|
  TFile := string;
  Rng := nat;
  newRegExp := compile;
  generateMarkdownLink := wikilink;
  randomIndex := counter
|}.

Definition document (lines : list string) : nat -> string :=
  fun n => nth n lines "".

(** The cursor on the line ["   - item"], nothing selected. *)
Definition itemEditor : Editor :=
  mkEditor (mkPos 0 0) (mkPos 0 0) (document ["   - item"]).

(** Two lines selected from end to end. *)
Definition fooBarEditor : Editor :=
  mkEditor (mkPos 0 0) (mkPos 1 3) (document ["foo"; "bar"]).

(** Three lines selected, the middle one empty. *)
Definition gapEditor : Editor :=
  mkEditor (mkPos 0 0) (mkPos 2 3) (document ["foo"; ""; "bar"]).

(** Two lines selected, the second one with a block ID. *)
Definition anchoredSecondEditor : Editor :=
  mkEditor (mkPos 0 0) (mkPos 1 10) (document ["foo"; "bar ^abc12"]).

(** The cursor on a line that is a block ID and nothing else. *)
Definition bareAnchorEditor : Editor :=
  mkEditor (mkPos 0 0) (mkPos 0 0) (document ["^abc12"]).

(** The cursor on a line that ends with a block ID. *)
Definition anchoredEditor : Editor :=
  mkEditor (mkPos 0 0) (mkPos 0 0) (document ["foo ^abc12"]).

(** The cursor on the line ["foo"], before and after a first run. *)
Definition fooEditor : Editor :=
  mkEditor (mkPos 0 0) (mkPos 0 0) (document ["foo"]).

Definition fooAnchoredEditor : Editor :=
  mkEditor (mkPos 0 0) (mkPos 0 0) (document ["foo ^abcde"]).

(** The cursor on a line that ends with a block ID, the block ID alone
    selected. *)
Definition anchorSelectedEditor : Editor :=
  mkEditor (mkPos 0 4) (mkPos 0 10) (document ["foo ^abc12"]).

(** The default settings with a link text that names a price. *)
Definition pricedSettings : CarryForwardPluginSettings :=
  mkSettings "Price $100" "(see {{LINK}})" "\s*$" " (see {{LINK}})" true.

Definition invalidSettings : CarryForwardPluginSettings :=
  mkSettings "" "(see {{LINK}})" "[abc" " (see {{LINK}})" true.

End TestHost.

(* ================================================================== *)
(** ** The plugin class and its settings tab *)

Module PluginShell.

Import JsString RegExp CarryForward.

(** The object that [loadData] parses from the data file: any key may be
    missing. *)
Record StoredSettings : Type := mkStored {
  storedLinkText : option string;
  storedCopiedLinkText : option string;
  storedLineFormatFrom : option string;
  storedLineFormatTo : option string;
  storedRemoveLeadingWhitespace : option bool
}.

(** One key of [Object.assign]: the value of the later source wins when
    the key is there. *)
Definition assignKey {A : Type} (default : A) (stored : option A) : A :=
  match stored with
  | Some v => v
  | None => default
  end.

(** [loadSettings]: [Object.assign({}, DEFAULT_SETTINGS, await
    this.loadData())], [loadData] giving [null] when nothing was saved. *)
Definition loadSettings (data : option StoredSettings) : CarryForwardPluginSettings :=
  match data with
  | None => DEFAULT_SETTINGS
  | Some d =>
      mkSettings
        (assignKey (linkText DEFAULT_SETTINGS) (storedLinkText d))
        (assignKey (copiedLinkText DEFAULT_SETTINGS) (storedCopiedLinkText d))
        (assignKey (lineFormatFrom DEFAULT_SETTINGS) (storedLineFormatFrom d))
        (assignKey (lineFormatTo DEFAULT_SETTINGS) (storedLineFormatTo d))
        (assignKey (removeLeadingWhitespace DEFAULT_SETTINGS)
                   (storedRemoveLeadingWhitespace d))
  end.

(** [saveSettings]: [saveData(this.settings)] writes every key. *)
Definition saveSettings (settings : CarryForwardPluginSettings) : StoredSettings :=
  mkStored (Some (linkText settings))
           (Some (copiedLinkText settings))
           (Some (lineFormatFrom settings))
           (Some (lineFormatTo settings))
           (Some (removeLeadingWhitespace settings)).

(** Assignments to one field of the settings object. *)
Definition setLinkText (v : string) (s : CarryForwardPluginSettings) :=
  mkSettings v (copiedLinkText s) (lineFormatFrom s) (lineFormatTo s)
             (removeLeadingWhitespace s).

Definition setCopiedLinkText (v : string) (s : CarryForwardPluginSettings) :=
  mkSettings (linkText s) v (lineFormatFrom s) (lineFormatTo s)
             (removeLeadingWhitespace s).

Definition setLineFormatFrom (v : string) (s : CarryForwardPluginSettings) :=
  mkSettings (linkText s) (copiedLinkText s) v (lineFormatTo s)
             (removeLeadingWhitespace s).

Definition setLineFormatTo (v : string) (s : CarryForwardPluginSettings) :=
  mkSettings (linkText s) (copiedLinkText s) (lineFormatFrom s) v
             (removeLeadingWhitespace s).

Definition setRemoveLeadingWhitespace (v : bool) (s : CarryForwardPluginSettings) :=
  mkSettings (linkText s) (copiedLinkText s) (lineFormatFrom s) (lineFormatTo s) v.

(** The [onChange] callbacks of the settings tab, by the field they
    belong to. *)
Inductive TabEvent : Type :=
| LinkTextChanged (value : string)
| CopiedTextChanged (value : string)
| FromChanged (value : string)
| ToChanged (value : string)
| WhitespaceToggled (value : bool).

(** The plugin seen from its settings tab: the settings object, whether
    the From/To row carries the class [invalid], and what [saveData]
    wrote last. *)
Record TabState : Type := mkTab {
  tabSettings : CarryForwardPluginSettings;
  invalid : bool;
  data : option StoredSettings
}.

Section WithHost.

Context {host : Host}.

(** [display]: the row is created without the class, which is added if
    the pattern does not validate. *)
Definition display (settings : CarryForwardPluginSettings)
           (saved : option StoredSettings) : TabState :=
  mkTab settings
        (if negb (valid (validateRegex (lineFormatFrom settings))) then true else false)
        saved.

(** One [onChange] callback: the assignment to the settings, the class
    of the row, then [saveSettings]. *)
Definition onChange (e : TabEvent) (st : TabState) : TabState :=
  let settings := tabSettings st in
  let '(settings', invalid') :=
    match e with
    | LinkTextChanged value => (setLinkText value settings, invalid st)
    | CopiedTextChanged value => (setCopiedLinkText value settings, invalid st)
    | FromChanged value =>
        if String.eqb value "" then
          (setLineFormatFrom (lineFormatFrom DEFAULT_SETTINGS) settings, invalid st)
        else
          (setLineFormatFrom value settings,
           if negb (valid (validateRegex value)) then true else false)
    | ToChanged value =>
        if String.eqb value "" then
          (setLineFormatTo (lineFormatTo DEFAULT_SETTINGS) settings, invalid st)
        else (setLineFormatTo value settings, invalid st)
    | WhitespaceToggled value => (setRemoveLeadingWhitespace value settings, invalid st)
    end in
  mkTab settings' invalid' (Some (saveSettings settings')).

(** The callbacks of a session, in the order they fire. *)
Definition session (events : list TabEvent) (st : TabState) : TabState :=
  fold_left (fun st e => onChange e st) events st.

(** The From field is never cleared in [events]. *)
Definition neverClearsFrom (events : list TabEvent) : Prop :=
  Forall (fun e => match e with FromChanged value => value <> "" | _ => True end)
         events.

End WithHost.

End PluginShell.

(* ================================================================== *)
(** ** Further vocabulary *)

Module Vocabulary.

Import JsString RegExp CarryForward.

(** No backslash of [s] is followed by the letter [x]. *)
Fixpoint noEscape (x : ascii) (s : string) : bool :=
  match s with
  | "" => true
  | String a t =>
      match t with
      | String b _ => negb (Ascii.eqb a "\" && Ascii.eqb b x)
      | "" => true
      end && noEscape x t
  end.

(** The line feed, as a character. *)
Definition lineFeed : ascii := ascii_of_nat 10.

(** [line.match(blockIDRegex)] is not [null]. *)
Definition anchored (line : string) : bool :=
  match match_ line (exec blockIDRegex) with
  | Some _ => true
  | None => false
  end.

(** The block that looks for a block ID runs on line [lineNumber]: the
    line does not leave the loop body early, and the mode is SeparateLines
    or the line is the first of the selection. *)
Definition linked (editor : Editor) (copy : CopyTypes) (lineNumber : nat) : bool :=
  negb (passesThrough editor lineNumber)
  && (isSeparateLines copy || (lineNumber =? minLine editor)).

(** A new block ID is made for line [lineNumber]. *)
Definition mints (editor : Editor) (copy : CopyTypes) (lineNumber : nat) : bool :=
  linked editor copy lineNumber && negb (anchored (getLine editor lineNumber)).

(** [editor'] shows the document after the transaction of a call on
    [editor] that replaced the selected lines by [updated]: the cursors
    are where they were, and the selected lines read [updated]. *)
Definition showsUpdated (editor editor' : Editor) (updated : list string) : Prop :=
  cursorFrom editor' = cursorFrom editor
  /\ cursorTo editor' = cursorTo editor
  /\ forall k, k < List.length updated ->
                getLine editor' (minLine editor + k) = nth k updated "".

End Vocabulary.

(* ================================================================== *)
(** ** Further documents and sessions of the deterministic host *)

Module Fixtures.

Import JsString RegExp CarryForward TestHost PluginShell.

(** Two lines selected from end to end, the first one empty. *)
Definition blankFirstEditor : Editor :=
  mkEditor (mkPos 0 0) (mkPos 1 3) (document [""; "foo"]).

(** The document of [fooBarEditor] once each of its lines has received
    the block ID that the counting random source draws for it. *)
Definition fooBarAnchoredEditor : Editor :=
  mkEditor (mkPos 0 0) (mkPos 1 3) (document ["foo ^abcde"; "bar ^fghij"]).

(** A pattern that does not compile is typed into the From field, then
    the link text is changed. *)
Definition typingSession : list TabEvent :=
  [FromChanged "[abc"; LinkTextChanged "source"].

End Fixtures.

(* ================================================================== *)
(** ** Facts about strings *)

Module StringFacts.

Import JsString.

Lemma append_nil_r (s : string) : s ++ "" = s.
Proof. induction s as [|c s IH]; simpl; [reflexivity | now rewrite IH]. Qed.

Lemma append_assoc (a b c : string) : (a ++ b) ++ c = a ++ (b ++ c).
Proof. induction a as [|x a IH]; simpl; [reflexivity | now rewrite IH]. Qed.

Lemma length_append (a b : string) :
  String.length (a ++ b) = String.length a + String.length b.
Proof. induction a as [|x a IH]; simpl; [reflexivity | now rewrite IH]. Qed.

Lemma all_append (p : ascii -> bool) (a b : string) :
  all p (a ++ b) = all p a && all p b.
Proof.
  induction a as [|x a IH]; simpl; [reflexivity|].
  rewrite IH. now rewrite andb_assoc.
Qed.

Lemma take_length (s : string) : take (String.length s) s = s.
Proof. induction s as [|c s IH]; simpl; [reflexivity | now rewrite IH]. Qed.

Lemma take_append (a b : string) : take (String.length a) (a ++ b) = a.
Proof. induction a as [|x a IH]; simpl; [now destruct b | now rewrite IH]. Qed.

Lemma drop_append (a b : string) : drop (String.length a) (a ++ b) = b.
Proof. induction a as [|x a IH]; simpl; [now destruct b | exact IH]. Qed.

Lemma has_append (c : ascii) (a b : string) : has c (a ++ b) = has c a || has c b.
Proof.
  induction a as [|x a IH]; simpl; [reflexivity|].
  now rewrite IH, orb_assoc.
Qed.

Lemma take_beyond (n : nat) (s : string) : String.length s <= n -> take n s = s.
Proof.
  revert n; induction s as [|c s IH]; intros [|n] H; simpl in *; try reflexivity; try lia.
  rewrite IH; [reflexivity | lia].
Qed.

Lemma drop_beyond (n : nat) (s : string) : String.length s <= n -> drop n s = "".
Proof.
  revert n; induction s as [|c s IH]; intros [|n] H; simpl in *; try reflexivity; try lia.
  apply IH; lia.
Qed.

Lemma length_take (n : nat) (s : string) :
  String.length (take n s) = Nat.min n (String.length s).
Proof.
  revert n; induction s as [|c s IH]; intros [|n]; simpl; try reflexivity.
  now rewrite IH.
Qed.

Lemma all_take (p : ascii -> bool) (n : nat) (s : string) :
  all p s = true -> all p (take n s) = true.
Proof.
  revert n; induction s as [|c s IH]; intros [|n] H; simpl in *; try reflexivity.
  apply andb_true_iff in H as [H1 H2]. rewrite H1. now apply IH.
Qed.

Lemma all_impl (p q : ascii -> bool) (s : string) :
  (forall c, p c = true -> q c = true) -> all p s = true -> all q s = true.
Proof.
  intros Hpq; induction s as [|c s IH]; simpl; [reflexivity|].
  intros H. apply andb_true_iff in H as [H1 H2].
  now rewrite (Hpq _ H1), IH.
Qed.

Lemma clamp_nat (len n : nat) : clamp len (Z.of_nat n) = Nat.min n len.
Proof.
  unfold clamp. destruct (Z.of_nat n <? 0)%Z eqn:E.
  - apply Z.ltb_lt in E. lia.
  - now rewrite Nat2Z.id.
Qed.

(** [s.slice(a, b)] on in-range natural indices. *)
Lemma slice_nat (s : string) (a b : nat) :
  slice s (Z.of_nat a) (Z.of_nat b)
  = take (Nat.min b (String.length s) - Nat.min a (String.length s))
         (drop (Nat.min a (String.length s)) s).
Proof. unfold slice. now rewrite !clamp_nat. Qed.

Lemma slice_prefix (s : string) (n : nat) :
  slice s 0 (Z.of_nat n) = take n s.
Proof.
  change 0%Z with (Z.of_nat 0). rewrite slice_nat. simpl.
  rewrite Nat.sub_0_r.
  destruct (Nat.le_ge_cases n (String.length s)) as [H|H].
  - now rewrite Nat.min_l.
  - rewrite Nat.min_r by assumption.
    rewrite take_length. symmetry. now apply take_beyond.
Qed.

End StringFacts.

(* ================================================================== *)
(** ** Facts about the matcher *)

Module MatcherFacts.

Import JsString RegExp StringFacts.

(** *** The fuel of the star is enough *)

Lemma orElse_none_r (a : option Final) : orElse a None = a.
Proof. now destruct a. Qed.

(** The matcher depends on its continuation only through its values. *)
Lemma run_ext (r : regex) :
  forall seen s caps (k1 k2 : Cont),
    (forall seen' s' caps', k1 seen' s' caps' = k2 seen' s' caps') ->
    run r seen s caps k1 = run r seen s caps k2.
Proof.
  induction r as [|c|p|r1 IH1 r2 IH2|greedy r1 IH1|r1 IH1|n r1 IH1| | |p];
    intros seen s caps k1 k2 Hk; cbn [run].
  - apply Hk.
  - destruct s as [|a t]; [reflexivity|]. now rewrite Hk.
  - destruct s as [|a t]; [reflexivity|]. now rewrite Hk.
  - apply IH1. intros seen' s' caps'. now apply IH2.
  - generalize (String.length s). intros fuel. revert seen s caps.
    induction fuel as [|fuel IHf]; intros seen s caps; cbn [starLoop].
    + apply Hk.
    + rewrite Hk.
      rewrite (IH1 seen s caps _
                   (fun seen' s' caps' =>
                      if String.length s' <? String.length s
                      then starLoop (run r1) greedy k2 fuel seen' s' caps'
                      else None)); [reflexivity|].
      intros seen' s' caps'. now rewrite IHf.
  - rewrite Hk.
    rewrite (IH1 seen s caps _
                 (fun seen' s' caps' =>
                    if String.length s' <? String.length s
                    then k2 seen' s' caps' else None)); [reflexivity|].
    intros seen' s' caps'. now rewrite Hk.
  - apply IH1. intros seen' s' caps'. apply Hk.
  - destruct seen; [apply Hk | reflexivity].
  - destruct s; [apply Hk | reflexivity].
  - destruct seen as [|a seen]; [reflexivity|]. now rewrite Hk.
Qed.

(** With a continuation that always fails, the matcher fails. *)
Lemma run_fail (r : regex) :
  forall seen s caps, run r seen s caps (fun _ _ _ => None) = None.
Proof.
  induction r as [|c|p|r1 IH1 r2 IH2|greedy r1 IH1|r1 IH1|n r1 IH1| | |p];
    intros seen s caps; cbn [run]; try reflexivity.
  - destruct s as [|a t]; [reflexivity | now destruct (Ascii.eqb a c)].
  - destruct s as [|a t]; [reflexivity | now destruct (p a)].
  - rewrite (run_ext r1 seen s caps _ (fun _ _ _ => None)); [apply IH1|].
    intros seen' s' caps'. apply IH2.
  - generalize (String.length s). intros fuel. revert seen s caps.
    induction fuel as [|fuel IHf]; intros seen s caps; cbn [starLoop]; [reflexivity|].
    rewrite (run_ext r1 seen s caps _ (fun _ _ _ => None)).
    + rewrite IH1. now destruct greedy.
    + intros seen' s' caps'. rewrite IHf. now destruct (_ <? _).
  - rewrite (run_ext r1 seen s caps _ (fun _ _ _ => None)); [now rewrite IH1|].
    intros seen' s' caps'. now destruct (_ <? _).
  - apply IH1.
  - now destruct seen.
  - now destruct s.
  - destruct seen as [|a seen]; [reflexivity | now destruct (p a)].
Qed.

(** The loop of a star never runs out of fuel: started with at least as
    much fuel as the input has characters, it gives the same result. *)
Lemma starLoop_fuel (r : regex) (greedy : bool) (k : Cont) (fuel1 : nat) :
  forall fuel2 seen s caps,
    String.length s <= fuel1 ->
    String.length s <= fuel2 ->
    starLoop (run r) greedy k fuel1 seen s caps
    = starLoop (run r) greedy k fuel2 seen s caps.
Proof.
  assert (Hzero : forall fuel seen s caps,
             String.length s = 0 ->
             starLoop (run r) greedy k fuel seen s caps = k seen s caps).
  { intros [|fuel] seen s caps Hs; cbn [starLoop]; [reflexivity|].
    rewrite (run_ext r seen s caps _ (fun _ _ _ => None)).
    - rewrite run_fail. destruct greedy; [reflexivity | apply orElse_none_r].
    - intros seen' s' caps'. rewrite Hs. reflexivity. }
  induction fuel1 as [|fuel1 IH]; intros fuel2 seen s caps H1 H2.
  - rewrite !Hzero by lia. reflexivity.
  - destruct fuel2 as [|fuel2]; [rewrite !Hzero by lia; reflexivity|].
    cbn [starLoop].
    rewrite (run_ext r seen s caps _
               (fun seen' s' caps' =>
                  if String.length s' <? String.length s
                  then starLoop (run r) greedy k fuel2 seen' s' caps'
                  else None)); [reflexivity|].
    intros seen' s' caps'.
    destruct (String.length s' <? String.length s) eqn:E; [|reflexivity].
    apply Nat.ltb_lt in E. apply IH; lia.
Qed.

(** *** Classes under a star *)

(** A starred class followed by [$] succeeds exactly on a run of the
    class that reaches the end of the input, greedy or not. *)
Lemma starLoop_class_eol (p : ascii -> bool) (greedy : bool) (fuel : nat) :
  forall seen s caps,
    String.length s <= fuel ->
    starLoop (run (Class p)) greedy
             (fun seen' s' caps' => run Eol seen' s' caps' accept) fuel seen s caps
    = if all p s then Some ("", caps) else None.
Proof.
  induction fuel as [|fuel IH]; intros seen s caps Hlen.
  - destruct s; simpl in Hlen; [reflexivity | lia].
  - destruct s as [|a t].
    + simpl. now destruct greedy.
    + simpl in Hlen. cbn [starLoop run all].
      destruct (p a) eqn:Hp; cbn [andb orElse].
      * assert (Hlt : (String.length t <? String.length (String a t)) = true)
          by (apply Nat.ltb_lt; simpl; lia).
        rewrite Hlt, IH by lia.
        destruct greedy, (all p t); reflexivity.
      * now destruct greedy.
Qed.

Lemma run_star_class_eol (p : ascii -> bool) (greedy : bool) seen s caps :
  run (Seq (Star greedy (Class p)) Eol) seen s caps accept
  = if all p s then Some ("", caps) else None.
Proof.
  cbn [run]. now apply starLoop_class_eol.
Qed.

(** A greedy starred class at the end of a pattern takes the longest run
    of the class. *)
Lemma starLoop_class_accept (p : ascii -> bool) (fuel : nat) :
  forall seen s caps,
    String.length s <= fuel ->
    starLoop (run (Class p)) true accept fuel seen s caps
    = Some (trimStartOf p s, caps).
Proof.
  induction fuel as [|fuel IH]; intros seen s caps Hlen.
  - destruct s; simpl in Hlen; [reflexivity | lia].
  - destruct s as [|a t]; [reflexivity|].
    simpl in Hlen. cbn [starLoop run trimStartOf].
    destruct (p a); [|reflexivity].
    assert (Hlt : (String.length t <? String.length (String a t)) = true)
      by (apply Nat.ltb_lt; simpl; lia).
    rewrite Hlt, IH by lia. reflexivity.
Qed.

(** One step of the search. *)
Lemma search_here (r : regex) seen s i rest caps :
  run r seen s (repeat None (groupCount r)) accept = Some (rest, caps) ->
  search r seen s i
  = Some (mkMatch i (take (String.length s - String.length rest) s) caps None).
Proof. intros H. destruct s; simpl; now rewrite H. Qed.

Lemma search_next (r : regex) seen a t i :
  run r seen (String a t) (repeat None (groupCount r)) accept = None ->
  search r seen (String a t) i = search r (a :: seen) t (S i).
Proof. intros H. simpl. now rewrite H. Qed.

(** The search skips a prefix at none of whose positions the pattern
    matches. *)
Lemma search_skip (r : regex) (pre : string) :
  forall seen post i,
    (forall a b, pre = a ++ b -> b <> "" ->
                 run r (rev_onto a seen) (b ++ post)
                     (repeat None (groupCount r)) accept = None) ->
    search r seen (pre ++ post) i
    = search r (rev_onto pre seen) post (i + String.length pre).
Proof.
  induction pre as [|c pre IH]; intros seen post i H.
  - simpl. now rewrite Nat.add_0_r.
  - change (String c pre ++ post) with (String c (pre ++ post)).
    rewrite search_next.
    + rewrite IH.
      * simpl. f_equal. lia.
      * intros a b Hab Hb. apply (H (String c a) b); [now rewrite Hab | assumption].
    + apply (H "" (String c pre)); [reflexivity | discriminate].
Qed.

(** Whatever the search finds, it found at some split of the input. *)
Lemma search_found (r : regex) :
  forall s seen i m,
    search r seen s i = Some m ->
    exists pre post rest,
      s = pre ++ post
      /\ run r (rev_onto pre seen) post (repeat None (groupCount r)) accept
         = Some (rest, captures m)
      /\ index m = i + String.length pre
      /\ matched m = take (String.length post - String.length rest) post
      /\ groups m = None.
Proof.
  induction s as [|c s IH]; intros seen i m H.
  - simpl in H.
    destruct (run r seen "" (repeat None (groupCount r)) accept) as [[rest caps]|] eqn:E;
      [|discriminate].
    injection H as <-. exists "", "", rest. simpl. rewrite E.
    repeat split; lia.
  - simpl in H.
    destruct (run r seen (String c s) (repeat None (groupCount r)) accept)
      as [[rest caps]|] eqn:E.
    + injection H as <-. exists "", (String c s), rest. simpl. rewrite E.
      repeat split; lia.
    + apply IH in H as (pre & post & rest & -> & Hrun & Hi & Hm & Hg).
      exists (String c pre), post, rest. simpl.
      repeat split; try assumption. lia.
Qed.

(** *** Replacement templates *)

Lemma GetSubstitution_plain (m : MatchResult) (str t : string) :
  has "$" t = false -> GetSubstitution m str None t = t.
Proof.
  induction t as [|c t IH]; intros H; [reflexivity|].
  simpl in H. apply orb_false_iff in H as [Hc Ht].
  cbn [GetSubstitution]. unfold isChar at 1. rewrite Hc. now rewrite IH.
Qed.

Lemma has_all (c : ascii) (p : ascii -> bool) (s : string) :
  p c = false -> all p s = true -> has c s = false.
Proof.
  intros Hc. induction s as [|x s IH]; simpl; [reflexivity|].
  intros H. apply andb_true_iff in H as [Hx Hs].
  rewrite (IH Hs), orb_false_r.
  destruct (Ascii.eqb_spec x c) as [->|]; [congruence | reflexivity].
Qed.

Lemma GetSubstitution_append (m : MatchResult) (str a b : string) :
  has "$" a = false ->
  GetSubstitution m str None (a ++ b) = a ++ GetSubstitution m str None b.
Proof.
  induction a as [|c a IH]; intros H; [reflexivity|].
  simpl in H. apply orb_false_iff in H as [Hc Ha].
  change (String c a ++ b) with (String c (a ++ b)).
  cbn [GetSubstitution]. unfold isChar at 1. rewrite Hc. now rewrite IH.
Qed.

(** *** Literals and greedy stars *)

Lemma run_Seq (r1 r2 : regex) seen s caps k :
  run (Seq r1 r2) seen s caps k
  = run r1 seen s caps (fun seen' s' caps' => run r2 seen' s' caps' k).
Proof. reflexivity. Qed.

Lemma run_Group (n : nat) (r : regex) seen s caps k :
  run (Group n r) seen s caps k
  = run r seen s caps
        (fun seen' s' caps' =>
           k seen' s' (setCapture n (take (String.length s - String.length s') s) caps')).
Proof. reflexivity. Qed.

Lemma run_Opt_Lit (c : ascii) seen s caps k :
  run (Opt (Lit c)) seen s caps k
  = match s with
    | String a t => if Ascii.eqb a c then orElse (k (a :: seen) t caps) (k seen s caps)
                    else k seen s caps
    | "" => k seen s caps
    end.
Proof.
  cbn [run]. destruct s as [|a t]; [reflexivity|].
  destruct (Ascii.eqb a c); [|reflexivity].
  assert (Hlt : (String.length t <? String.length (String a t)) = true)
    by (apply Nat.ltb_lt; simpl; lia).
  now rewrite Hlt.
Qed.

Lemma run_Lits (l : string) :
  forall seen s caps k,
    run (Lits l) seen (l ++ s) caps k = k (rev_onto l seen) s caps.
Proof.
  induction l as [|c l IH]; intros seen s caps k; [reflexivity|].
  cbn [Lits run append rev_onto]. rewrite Ascii.eqb_refl. apply IH.
Qed.

Lemma run_Lits_mismatch (c : ascii) (l : string) seen s caps k :
  match s with
  | String a _ => Ascii.eqb a c = false
  | "" => True
  end ->
  run (Lits (String c l)) seen s caps k = None.
Proof.
  intros H. cbn [Lits run]. destruct s as [|a t]; [reflexivity|]. now rewrite H.
Qed.

Lemma run_star_nil (greedy : bool) (p : ascii -> bool) seen caps k :
  run (Star greedy (Class p)) seen "" caps k = k seen "" caps.
Proof. reflexivity. Qed.

Lemma run_star_cons (p : ascii -> bool) seen a t caps k :
  run (Star true (Class p)) seen (String a t) caps k
  = if p a
    then orElse (run (Star true (Class p)) (a :: seen) t caps k)
                (k seen (String a t) caps)
    else k seen (String a t) caps.
Proof.
  cbn [run String.length starLoop]. destruct (p a); [|reflexivity].
  assert (Hlt : (String.length t <? S (String.length t)) = true)
    by (apply Nat.ltb_lt; lia).
  now rewrite Hlt.
Qed.

(** A greedy starred class gives up every character it took, one by one,
    until the continuation succeeds: if the continuation fails wherever
    the rest does not begin with [stop], and [stop] does not occur in the
    input, the star fails. *)
Lemma run_star_without (p : ascii -> bool) (stop : ascii) (k : Cont) :
  (forall seen s caps,
      match s with
      | String a _ => Ascii.eqb a stop = false
      | "" => True
      end -> k seen s caps = None) ->
  forall s seen caps,
    has stop s = false ->
    run (Star true (Class p)) seen s caps k = None.
Proof.
  intros Hk. induction s as [|a t IH]; intros seen caps Hs.
  - rewrite run_star_nil. now apply Hk.
  - simpl in Hs. apply orb_false_iff in Hs as [Ha Ht].
    rewrite run_star_cons, (IH _ _ Ht), (Hk seen (String a t) caps Ha).
    now destruct (p a).
Qed.

(** [s.replace(re, t)] with nothing to expand in [t]. *)
Lemma replace_plain (s t : string) (re : Matcher) (m : MatchResult) :
  re s = Some m -> has "$" t = false ->
  replace s re t
  = take (Nat.min (index m) (String.length s)) s ++ t
    ++ drop (Nat.min (index m) (String.length s) + String.length (matched m)) s.
Proof.
  intros Hm Ht. unfold replace. rewrite Hm. now rewrite GetSubstitution_plain.
Qed.

End MatcherFacts.

(* ================================================================== *)
(** ** Facts about the regular expression literals of the source *)

Module LiteralFacts.

Import JsString RegExp StringFacts MatcherFacts CarryForward.

Lemma rev_onto_append (a b : string) (acc : list ascii) :
  rev_onto (a ++ b) acc = rev_onto b (rev_onto a acc).
Proof. revert acc; induction a as [|c a IH]; intros acc; simpl; [reflexivity | apply IH]. Qed.

Lemma rev_onto_cons (p : string) :
  forall acc c l,
    rev_onto p acc = c :: l ->
    (p = "" /\ acc = c :: l) \/ exists pre, p = pre ++ String c "".
Proof.
  induction p as [|x p IH]; intros acc c l H; simpl in H.
  - left. now split.
  - right. apply IH in H as [[-> Hacc] | [pre ->]].
    + injection Hacc as -> _. now exists "".
    + now exists (String x pre).
Qed.

(** *** [/^\s*$/] *)

Lemma search_bol (r : regex) (s : string) :
  forall seen i, seen <> [] -> search (Seq Bol r) seen s i = None.
Proof.
  induction s as [|c s IH]; intros seen i H; destruct seen as [|a seen];
    try congruence; simpl.
  - reflexivity.
  - apply IH. discriminate.
Qed.

Lemma exec_blankLine (s : string) :
  exec blankLine s
  = if all CharClass.space s then Some (mkMatch 0 s [] None) else None.
Proof.
  unfold exec, blankLine.
  assert (Hrun : run (Seq Bol (Seq (Star true (Class CharClass.space)) Eol)) [] s
                     (repeat None 0) accept
                 = if all CharClass.space s then Some ("", []) else None)
    by (cbn [run]; apply starLoop_class_eol; lia).
  destruct (all CharClass.space s) eqn:E.
  - rewrite (search_here _ _ _ _ _ _ Hrun). simpl String.length.
    now rewrite Nat.sub_0_r, take_length.
  - destruct s as [|c s].
    + discriminate.
    + rewrite search_next by exact Hrun. apply search_bol. discriminate.
Qed.

(** *** [/^\s*/] *)

Lemma length_trimStart (p : ascii -> bool) (s : string) :
  String.length (trimStartOf p s) <= String.length s.
Proof.
  induction s as [|c s IH]; simpl; [lia|].
  destruct (p c); simpl; lia.
Qed.

Lemma drop_trimStart (p : ascii -> bool) (s : string) :
  drop (String.length s - String.length (trimStartOf p s)) s = trimStartOf p s.
Proof.
  induction s as [|c s IH]; [reflexivity|].
  cbn [trimStartOf]. destruct (p c).
  - pose proof (length_trimStart p s) as Hle.
    replace (String.length (String c s) - String.length (trimStartOf p s))
      with (S (String.length s - String.length (trimStartOf p s)))
      by (cbn [String.length]; lia).
    exact IH.
  - now rewrite Nat.sub_diag.
Qed.

(** [s.replace(/^\s*/, '')] removes the leading white space. *)
Lemma replace_leadingSpace (s : string) :
  replace s (exec leadingSpace) "" = trimStartOf CharClass.space s.
Proof.
  assert (Hrun : run leadingSpace [] s (repeat None (groupCount leadingSpace)) accept
                 = Some (trimStartOf CharClass.space s, []))
    by (cbn [leadingSpace run]; apply starLoop_class_accept; lia).
  pose proof (search_here _ _ _ 0 _ _ Hrun) as Hm.
  rewrite (replace_plain s "" (exec leadingSpace) _ Hm eq_refl).
  cbn [index matched Nat.min take append Nat.add].
  rewrite length_take.
  pose proof (length_trimStart CharClass.space s) as Hle.
  rewrite Nat.min_l by lia.
  apply drop_trimStart.
Qed.

(** *** [/\s*?$/] *)

Lemma trimEnd_split (p : ascii -> bool) (s : string) :
  s = trimEndOf p s ++ drop (String.length (trimEndOf p s)) s.
Proof.
  induction s as [|c s IH]; [reflexivity|].
  cbn [trimEndOf]. destruct (all p (String c s)); simpl; [reflexivity|].
  now rewrite <- IH.
Qed.

Lemma trimEnd_trailing (p : ascii -> bool) (s : string) :
  all p (drop (String.length (trimEndOf p s)) s) = true.
Proof.
  induction s as [|c s IH]; [reflexivity|].
  cbn [trimEndOf]. destruct (all p (String c s)) eqn:E; simpl; [exact E | exact IH].
Qed.

Lemma trimEnd_endsOutside (p : ascii -> bool) (s : string) :
  endsOutside p (trimEndOf p s).
Proof.
  unfold endsOutside. induction s as [|c s IH]; [exact I|].
  cbn [trimEndOf]. destruct (all p (String c s)) eqn:E; [exact I|].
  cbn [last]. destruct (trimEndOf p s) as [|d u] eqn:Eu.
  - (* the rest is white space, so [c] is not *)
    simpl in E. pose proof (trimEnd_trailing p s) as Ht. rewrite Eu in Ht.
    simpl in Ht. rewrite Ht, andb_true_r in E. exact E.
  - exact IH.
Qed.

Lemma search_trailingSpace (s : string) :
  forall seen i,
    search trailingSpace seen s i
    = Some (mkMatch (i + String.length (trimEndOf CharClass.space s))
                    (drop (String.length (trimEndOf CharClass.space s)) s) [] None).
Proof.
  induction s as [|c s IH]; intros seen i.
  - simpl. now rewrite Nat.add_0_r.
  - pose proof (run_star_class_eol CharClass.space false seen (String c s) []) as Hrun.
    cbn [trimEndOf]. destruct (all CharClass.space (String c s)) eqn:E.
    + unfold trailingSpace. rewrite (search_here _ _ _ _ _ _ Hrun).
      cbn [String.length drop]. rewrite Nat.sub_0_r, Nat.add_0_r.
      change (S (String.length s)) with (String.length (String c s)).
      now rewrite take_length.
    + unfold trailingSpace. rewrite search_next by exact Hrun.
      fold trailingSpace. rewrite IH. simpl. do 2 f_equal. lia.
Qed.

(** [line.replace(/\s*?$/, t)] puts [t] in the place of the trailing
    white space of [line]. *)
Lemma replace_trailingSpace (s t : string) :
  has "$" t = false ->
  replace s (exec trailingSpace) t = trimEndOf CharClass.space s ++ t.
Proof.
  intros Ht.
  pose proof (search_trailingSpace s [] 0) as Hm. simpl in Hm.
  rewrite (replace_plain s t (exec trailingSpace) _ Hm Ht). cbn [index matched].
  pose proof (trimEnd_split CharClass.space s) as Hs.
  set (body := trimEndOf CharClass.space s) in *.
  set (ws := drop (String.length body) s) in *.
  assert (Hlen : String.length s = String.length body + String.length ws)
    by (rewrite Hs at 1; apply length_append).
  rewrite Nat.min_l by lia.
  rewrite drop_beyond by lia.
  rewrite Hs at 1. rewrite take_append. now rewrite append_nil_r.
Qed.

(** *** The pattern that removes the closing brackets of a link *)

Lemma run_closingBrackets_inv seen s caps r :
  run closingBrackets seen s caps accept = Some r -> s = "]]".
Proof.
  unfold closingBrackets. cbn [Lits run].
  destruct s as [|x [|y [|z t]]]; try discriminate.
  - destruct (Ascii.eqb x "]"); discriminate.
  - destruct (Ascii.eqb_spec x "]") as [->|]; [|discriminate].
    destruct (Ascii.eqb_spec y "]") as [->|]; [reflexivity | discriminate].
  - destruct (Ascii.eqb x "]"); [|discriminate].
    destruct (Ascii.eqb y "]"); discriminate.
Qed.

(** [link.replace(closingBrackets, empty)] takes the final brackets off. *)
Lemma replace_closingBrackets (body : string) :
  replace (body ++ "]]") (exec closingBrackets) "" = body.
Proof.
  assert (Hm : exec closingBrackets (body ++ "]]")
               = Some (mkMatch (String.length body) "]]" [] None)).
  { unfold exec. rewrite search_skip.
    - reflexivity.
    - intros a b Hab Hb.
      destruct (run closingBrackets (rev_onto a []) (b ++ "]]")
                    (repeat None (groupCount closingBrackets)) accept) eqn:E;
        [exfalso | reflexivity].
      apply run_closingBrackets_inv in E.
      apply (f_equal String.length) in E. rewrite length_append in E.
      destruct b; [congruence | simpl in E; lia]. }
  rewrite (replace_plain _ "" _ _ Hm eq_refl). cbn [index matched].
  rewrite length_append. cbn [String.length].
  rewrite Nat.min_l by lia.
  rewrite take_append, drop_beyond by (rewrite length_append; simpl; lia).
  cbn [append]. apply append_nil_r.
Qed.

(** *** [linkPlaceholder] *)

Lemma closing_not_yet (post : string) seen caps :
  has "}" post = false ->
  run (Lits "}}") seen (String "}" post) caps accept = None.
Proof.
  intros H. cbn [Lits run]. rewrite Ascii.eqb_refl.
  destruct post as [|a t]; [reflexivity|].
  simpl in H. apply orb_false_iff in H as [Ha _]. now rewrite Ha.
Qed.

(** The greedy [.*] of the group runs to the last [}}]: with no [}] after
    it, that is the one that closes the placeholder. *)
Lemma star_to_closing (f : string -> Captures -> Captures) (post : string) :
  has "}" post = false ->
  forall u seen caps,
    all CharClass.dot u = true ->
    run (Star true (Class CharClass.dot)) seen (u ++ "}}" ++ post) caps
        (fun seen' s' caps' => run (Lits "}}") seen' s' (f s' caps') accept)
    = Some (post, f ("}}" ++ post) caps).
Proof.
  intros Hpost. induction u as [|a u IH]; intros seen caps Hu.
  - cbn [append]. rewrite run_star_cons.
    replace (CharClass.dot "}") with true by reflexivity.
    rewrite run_star_cons.
    replace (CharClass.dot "}") with true by reflexivity.
    rewrite (run_star_without CharClass.dot "}").
    + rewrite closing_not_yet by assumption. cbn [orElse].
      apply (run_Lits "}}" _ post).
    + intros seen' s caps' Hs. now apply run_Lits_mismatch.
    + assumption.
  - simpl in Hu. apply andb_true_iff in Hu as [Ha Hu].
    change (String a u ++ "}}" ++ post) with (String a (u ++ "}}" ++ post)).
    rewrite run_star_cons, Ha, IH by assumption. reflexivity.
Qed.

Lemma run_linkPlaceholder (suffix post : string) seen :
  all CharClass.dot suffix = true ->
  has "}" post = false ->
  run linkPlaceholder seen ("{{LINK" ++ suffix ++ "}}" ++ post) [None] accept
  = Some (post, [Some suffix]).
Proof.
  intros Hs Hp. unfold linkPlaceholder.
  rewrite run_Seq, run_Lits, run_Seq, run_Group, run_Seq, run_Opt_Lit.
  set (s0 := suffix ++ "}}" ++ post).
  set (f := fun (s' : string) (caps' : Captures) =>
              setCapture 1 (take (String.length s0 - String.length s') s0) caps').
  assert (Hend : f ("}}" ++ post) [None] = [Some suffix]).
  { unfold f, s0. rewrite length_append.
    replace (String.length suffix + String.length ("}}" ++ post)
             - String.length ("}}" ++ post)) with (String.length suffix) by lia.
    now rewrite take_append. }
  assert (Hstar : forall u seen1,
             all CharClass.dot u = true ->
             run (Star true (Class CharClass.dot)) seen1 (u ++ "}}" ++ post) [None]
                 (fun seen' s' caps' =>
                    run (Lits "}}") seen' s'
                        (setCapture 1 (take (String.length s0 - String.length s') s0) caps')
                        accept)
             = Some (post, [Some suffix])).
  { intros u seen1 Hu. rewrite <- Hend. now apply (star_to_closing f). }
  destruct suffix as [|a u].
  - cbn [append] in *. replace (Ascii.eqb "}" "|") with false by reflexivity.
    apply (Hstar "" _ eq_refl).
  - subst s0. change (String a u ++ "}}" ++ post) with (String a (u ++ "}}" ++ post)) in *.
    cbv beta iota.
    simpl in Hs. apply andb_true_iff in Hs as [Ha Hu].
    destruct (Ascii.eqb a "|").
    + rewrite (Hstar u _ Hu). reflexivity.
    + apply (Hstar (String a u)). simpl. now rewrite Ha, Hu.
Qed.

Lemma exec_linkPlaceholder (pre suffix post : string) :
  has "{" pre = false ->
  all CharClass.dot suffix = true ->
  has "}" post = false ->
  exec linkPlaceholder (pre ++ "{{LINK" ++ suffix ++ "}}" ++ post)
  = Some (mkMatch (String.length pre) ("{{LINK" ++ suffix ++ "}}") [Some suffix] None).
Proof.
  intros Hpre Hs Hp. unfold exec. rewrite search_skip.
  - change (repeat None (groupCount linkPlaceholder)) with [@None string].
    rewrite (search_here _ _ _ _ _ _ (run_linkPlaceholder suffix post _ Hs Hp)).
    do 2 f_equal.
    change ("{{LINK" ++ suffix ++ "}}" ++ post)
      with ("{{LINK" ++ (suffix ++ ("}}" ++ post))).
    rewrite <- (append_assoc suffix "}}" post), <- (append_assoc "{{LINK").
    rewrite length_append.
    replace (String.length ("{{LINK" ++ suffix ++ "}}") + String.length post
             - String.length post)
      with (String.length ("{{LINK" ++ suffix ++ "}}")) by lia.
    apply take_append.
  - intros a b Hab Hb. unfold linkPlaceholder. rewrite run_Seq.
    apply run_Lits_mismatch.
    destruct b as [|x b]; [congruence|]. cbn [append].
    rewrite Hab, has_append in Hpre. apply orb_false_iff in Hpre as [_ Hx].
    simpl in Hx. now apply orb_false_iff in Hx as [Hx _].
Qed.

(** The substitution rule: the placeholder gives way to the link without
    its closing brackets, the text between [{{LINK] and [}}], and closing
    brackets again -- for a link in which the replacement template finds
    nothing to expand. *)
Lemma fillPlaceholder_rule (pre suffix post body : string) :
  has "{" pre = false ->
  all CharClass.dot suffix = true ->
  has "}" post = false ->
  has "$" body = false ->
  fillPlaceholder (pre ++ "{{LINK" ++ suffix ++ "}}" ++ post) (body ++ "]]")
  = pre ++ body ++ suffix ++ "]]" ++ post.
Proof.
  intros Hpre Hs Hp Hbody.
  unfold fillPlaceholder, linkReplacement. rewrite replace_closingBrackets.
  unfold replace. rewrite (exec_linkPlaceholder pre suffix post Hpre Hs Hp).
  cbn [index matched].
  rewrite GetSubstitution_append by assumption.
  replace (GetSubstitution
             (mkMatch (String.length pre) ("{{LINK" ++ suffix ++ "}}") [Some suffix] None)
             (pre ++ "{{LINK" ++ suffix ++ "}}" ++ post) None "$1]]")
    with (suffix ++ "]]") by reflexivity.
  set (whole := "{{LINK" ++ suffix ++ "}}").
  assert (Ht : pre ++ "{{LINK" ++ suffix ++ "}}" ++ post = (pre ++ whole) ++ post)
    by (unfold whole; now rewrite !append_assoc).
  rewrite Nat.min_l by (rewrite Ht, !length_append; lia).
  rewrite take_append.
  rewrite Ht, <- length_append, drop_append.
  now rewrite !append_assoc.
Qed.

(** *** [blockIDRegex] *)

Lemma run_blockIDRegex seen s caps :
  run blockIDRegex seen s caps accept
  = match seen, s with
    | a :: _, String x (String y u) =>
        if CharClass.spaceOrCaret a && Ascii.eqb x "^"
           && CharClass.blockIdChar y && all CharClass.blockIdChar u
        then Some ("", caps) else None
    | _, _ => None
    end.
Proof.
  unfold blockIDRegex, Plus. destruct seen as [|a seen]; [reflexivity|].
  cbn [run]. destruct (CharClass.spaceOrCaret a); cbn [andb].
  2: now destruct s as [|x [|y u]].
  destruct s as [|x [|y u]]; [reflexivity | now destruct (Ascii.eqb x "^") |].
  destruct (Ascii.eqb x "^"); cbn [andb]; [|reflexivity].
  destruct (CharClass.blockIdChar y); cbn [andb]; [|reflexivity].
  apply starLoop_class_eol. lia.
Qed.

Lemma run_blockIDRegex_inv seen s caps rest caps' :
  run blockIDRegex seen s caps accept = Some (rest, caps') ->
  exists a seen' tok,
    seen = a :: seen' /\ CharClass.spaceOrCaret a = true
    /\ s = String "^" tok /\ tok <> ""
    /\ all CharClass.blockIdChar tok = true
    /\ rest = "" /\ caps' = caps.
Proof.
  rewrite run_blockIDRegex.
  destruct seen as [|a seen]; [discriminate|].
  destruct s as [|x [|y u]]; try discriminate.
  destruct (CharClass.spaceOrCaret a) eqn:Ha; [|discriminate].
  destruct (Ascii.eqb_spec x "^") as [->|]; [|discriminate].
  destruct (CharClass.blockIdChar y) eqn:Hy; [|discriminate].
  destruct (all CharClass.blockIdChar u) eqn:Hu; [|discriminate].
  cbn [andb]. intros H. inversion H; subst.
  exists a, seen, (String y u).
  repeat split; try reflexivity; try discriminate; try assumption.
  cbn [all]. now rewrite Hy, Hu.
Qed.

(** A line that ends with a caret and block-ID characters, the caret
    following white space or another caret, matches there and nowhere
    before. *)
Lemma exec_blockIDRegex (pre tok : string) (c : ascii) :
  CharClass.spaceOrCaret c = true ->
  tok <> "" ->
  all CharClass.blockIdChar tok = true ->
  exec blockIDRegex (pre ++ String c (String "^" tok))
  = Some (mkMatch (S (String.length pre)) (String "^" tok) [] None).
Proof.
  intros Hc Hne Htok. unfold exec.
  change (pre ++ String c (String "^" tok))
    with (pre ++ (String c "" ++ String "^" tok)).
  rewrite <- append_assoc.
  rewrite search_skip.
  - rewrite rev_onto_append. cbn [rev_onto].
    assert (Hrun : run blockIDRegex (c :: rev_onto pre []) (String "^" tok)
                       (repeat None (groupCount blockIDRegex)) accept
                   = Some ("", [])).
    { rewrite run_blockIDRegex. destruct tok as [|y u]; [congruence|].
      simpl in Htok. apply andb_true_iff in Htok as [Hy Hu].
      now rewrite Hc, Hy, Hu. }
    rewrite (search_here _ _ _ _ _ _ Hrun).
    rewrite length_append. cbn [String.length Nat.add].
    rewrite Nat.sub_0_r.
    change (S (String.length tok)) with (String.length (String "^" tok)).
    rewrite take_length. do 2 f_equal. lia.
  - intros a b Hab Hb.
    destruct (run blockIDRegex (rev_onto a []) (b ++ String "^" tok)
                  (repeat None (groupCount blockIDRegex)) accept)
      as [[rest caps]|] eqn:E; [exfalso | reflexivity].
    apply run_blockIDRegex_inv in E
      as (x & seen' & tok' & _ & _ & Hs & _ & Hall & _).
    destruct b as [|y b]; [congruence|].
    simpl in Hs. injection Hs as -> <-.
    rewrite all_append in Hall. simpl in Hall.
    now rewrite andb_false_r in Hall.
Qed.

(** Conversely, a match of [blockIDRegex] is such an ending. *)
Lemma exec_blockIDRegex_inv (s : string) (m : MatchResult) :
  exec blockIDRegex s = Some m ->
  exists pre c tok,
    s = pre ++ String c (String "^" tok)
    /\ CharClass.spaceOrCaret c = true
    /\ tok <> ""
    /\ all CharClass.blockIdChar tok = true
    /\ m = mkMatch (S (String.length pre)) (String "^" tok) [] None.
Proof.
  intros H. unfold exec in H.
  apply search_found in H as (p & post & rest & -> & Hrun & Hi & Hm & Hg).
  apply run_blockIDRegex_inv in Hrun
    as (c & seen' & tok & Hseen & Hc & -> & Hne & Htok & -> & Hcaps).
  apply rev_onto_cons in Hseen as [[_ Habs] | [pre ->]]; [discriminate|].
  exists pre, c, tok.
  rewrite append_assoc. repeat split; try assumption.
  destruct m as [mi mm mc mg]. cbn [index matched captures groups] in *. subst.
  rewrite length_append. cbn [String.length Nat.add]. rewrite Nat.sub_0_r.
  change (S (String.length tok)) with (String.length (String "^" tok)).
  rewrite take_length. f_equal. lia.
Qed.

End LiteralFacts.

(* ================================================================== *)
(** ** Facts about the plugin *)

Module PluginFacts.

Import JsString RegExp StringFacts MatcherFacts LiteralFacts CarryForward.

(** *** genID *)

Lemma character_alphabet (k : nat) :
  all CharClass.idAlphabet
      (match at_ characters k with
       | Some c => String c ""
       | None => "undefined"
       end) = true.
Proof.
  unfold at_, characters.
  do 37 (destruct k as [|k]; [reflexivity|]). reflexivity.
Qed.

Lemma character_length (k : nat) :
  1 <= String.length
         (match at_ characters k with
          | Some c => String c ""
          | None => "undefined"
          end).
Proof. destruct (at_ characters k); simpl; lia. Qed.

Lemma idAlphabet_blockIdChar (c : ascii) :
  CharClass.idAlphabet c = true -> CharClass.blockIdChar c = true.
Proof.
  unfold CharClass.idAlphabet, CharClass.blockIdChar.
  intros H. repeat (apply orb_true_iff in H as [H|H]); rewrite H;
    repeat rewrite orb_true_r; reflexivity.
Qed.

Section WithHost.

Context {host : Host}.

Lemma genIDLoop_spec (fuel : nat) :
  forall length id g,
    length <= String.length id + fuel ->
    all CharClass.idAlphabet id = true ->
    length <= String.length (fst (genIDLoop fuel length id g))
    /\ all CharClass.idAlphabet (fst (genIDLoop fuel length id g)) = true.
Proof.
  induction fuel as [|fuel IH]; intros len id g Hlen Hid.
  - simpl. destruct (String.length id <? len) eqn:E; simpl; split; try assumption.
    + apply Nat.ltb_lt in E. lia.
    + apply Nat.ltb_ge in E. lia.
  - cbn [genIDLoop]. destruct (String.length id <? len) eqn:E.
    + destruct (randomIndex g (String.length characters)) as [k g'].
      apply IH.
      * unfold appendCharacter. rewrite length_append.
        pose proof (character_length k). lia.
      * unfold appendCharacter. rewrite all_append, Hid.
        apply character_alphabet.
    + simpl. split; [|assumption]. apply Nat.ltb_ge in E. lia.
Qed.

(** [genID] returns exactly [length] characters of its alphabet,
    whatever the random source answers. *)
Lemma genID_spec (length : nat) (g : Rng) :
  String.length (fst (genID length g)) = length
  /\ all CharClass.idAlphabet (fst (genID length g)) = true.
Proof.
  unfold genID.
  destruct (genIDLoop_spec length length "" g) as [Hlen Hall];
    [simpl; lia | reflexivity |].
  destruct (genIDLoop length length "" g) as [id g']. simpl in *.
  rewrite slice_prefix. split.
  - rewrite length_take. lia.
  - now apply all_take.
Qed.

Lemma genID_plain (len : nat) (g : Rng) :
  has "$" (" ^" ++ fst (genID len g)) = false.
Proof.
  cbn [append has Ascii.eqb Bool.eqb orb].
  apply has_all with (p := CharClass.idAlphabet); [reflexivity|].
  apply genID_spec.
Qed.

(** *** validateRegex *)

Lemma unescape_plain (x y : ascii) (s : string) :
  has "\" s = false -> unescape x y s = s.
Proof.
  induction s as [|a t IH]; intros H; [reflexivity|].
  simpl in H. apply orb_false_iff in H as [Ha Ht].
  cbn [unescape]. rewrite Ha. now rewrite IH.
Qed.

(** A pattern without a backslash is compiled as it is written. *)
Lemma updatedRegexString_plain (regexString : string) :
  has "\" regexString = false -> updatedRegexString regexString = regexString.
Proof.
  intros H. unfold updatedRegexString.
  rewrite (unescape_plain "n" _ regexString H), (unescape_plain "t" _ regexString H).
  exact (unescape_plain "r" _ regexString H).
Qed.

(** *** The block that looks for a block ID *)

Variable editor : Editor.
Variable file : TFile.
Variable settings : CarryForwardPluginSettings.
Variable copy : CopyTypes.

(** A line that ends with a block ID keeps it: nothing is drawn from
    the random source and the link names the block ID found. *)
Lemma linkStep_reuse (pre tok : string) (c : ascii) (copiedLine newID : string) (g : Rng) :
  CharClass.spaceOrCaret c = true ->
  tok <> "" ->
  all CharClass.blockIdChar tok = true ->
  linkStep file settings copy (pre ++ String c (String "^" tok)) copiedLine newID g
  = bind (copiedText settings copy true
            (generateMarkdownLink file "/" ("#^" ++ tok) (linkText settings))
            copiedLine)
         (fun copied =>
            Normal (pre ++ String c (String "^" tok), copied, newID, g)).
Proof.
  intros Hc Hne Htok. unfold linkStep, match_.
  now rewrite exec_blockIDRegex.
Qed.

(** A line without a block ID gets one in the place of its trailing
    white space. *)
Lemma linkStep_mint (line copiedLine newID : string) (g : Rng) :
  exec blockIDRegex line = None ->
  linkStep file settings copy line copiedLine newID g
  = bind (copiedText settings copy false
            (generateMarkdownLink file "/" ("#^" ++ fst (genID 5 g))
                                  (linkText settings))
            copiedLine)
         (fun copied =>
            Normal (trimEndOf CharClass.space line ++ " ^" ++ fst (genID 5 g),
                    copied, "^" ++ fst (genID 5 g), snd (genID 5 g))).
Proof.
  intros H. unfold linkStep, match_. rewrite H.
  pose proof (genID_plain 5 g) as Hplain.
  destruct (genID 5 g) as [id g']. cbn [fst snd] in *.
  now rewrite replace_trailingSpace.
Qed.

Lemma copiedText_linkOnly (strip : bool) (link copiedLine : string) :
  isLinkOnly copy || isLinkOnlyEmbed copy = true ->
  copiedText settings copy strip link copiedLine
  = Normal (if isLinkOnlyEmbed copy then "!" ++ link
            else fillPlaceholder (copiedLinkText settings) link).
Proof.
  intros H. unfold copiedText. rewrite H.
  now destruct (isLinkOnlyEmbed copy).
Qed.

Lemma copiedText_transform (strip : bool) (link copiedLine : string) (re : Matcher) :
  isLinkOnly copy || isLinkOnlyEmbed copy = false ->
  newRegExp (lineFormatFrom settings) = inr re ->
  copiedText settings copy strip link copiedLine
  = Normal (replace (if strip then replace copiedLine (exec blockIDRegex) ""
                     else copiedLine)
                    re (fillPlaceholder (lineFormatTo settings) link)).
Proof. intros H Hre. unfold copiedText. now rewrite H, Hre. Qed.

Lemma copiedText_total (strip : bool) (link copiedLine : string) :
  (exists re, newRegExp (lineFormatFrom settings) = inr re) ->
  exists copied, copiedText settings copy strip link copiedLine = Normal copied.
Proof.
  intros [re Hre]. unfold copiedText. rewrite Hre.
  destruct (isLinkOnly copy || isLinkOnlyEmbed copy); eauto.
Qed.

(** Removing the block ID that ends a text. *)
Lemma replace_blockID (pre tok : string) (c : ascii) :
  CharClass.spaceOrCaret c = true ->
  tok <> "" ->
  all CharClass.blockIdChar tok = true ->
  replace (pre ++ String c (String "^" tok)) (exec blockIDRegex) ""
  = pre ++ String c "".
Proof.
  intros Hc Hne Htok.
  rewrite (replace_plain _ _ _ _ (exec_blockIDRegex pre tok c Hc Hne Htok)) by reflexivity.
  cbn [index matched].
  change (pre ++ String c (String "^" tok))
    with (pre ++ (String c "" ++ String "^" tok)).
  rewrite <- (append_assoc pre (String c "") (String "^" tok)).
  assert (Hlen : String.length (pre ++ String c "") = S (String.length pre))
    by (rewrite length_append; simpl; lia).
  rewrite (length_append (pre ++ String c "")), Hlen.
  rewrite Nat.min_l by lia.
  rewrite <- Hlen at 1. rewrite take_append.
  rewrite drop_beyond by (rewrite length_append, Hlen; lia).
  cbn [append]. apply append_nil_r.
Qed.

(** *** The copy slice, case by case *)

Lemma copySlice_interior (lineNumber : nat) :
  minLine editor < lineNumber < maxLine editor ->
  copySlice editor settings lineNumber = getLine editor lineNumber.
Proof.
  intros [Hmin Hmax]. unfold copySlice.
  replace (lineNumber =? minLine editor) with false
    by (symmetry; apply Nat.eqb_neq; lia).
  replace (lineNumber =? maxLine editor) with false
    by (symmetry; apply Nat.eqb_neq; lia).
  now rewrite andb_false_r.
Qed.

(** The first of several lines is cut one character short of its end. *)
Lemma copySlice_first :
  minLine editor < maxLine editor ->
  copySlice editor settings (minLine editor)
  = slice (getLine editor (minLine editor))
          (Z.of_nat (ch (cursorFrom editor)))
          (Z.of_nat (String.length (getLine editor (minLine editor))) - 1).
Proof.
  intros Hlt. unfold copySlice. rewrite Nat.eqb_refl.
  replace (minLine editor =? maxLine editor) with false
    by (symmetry; apply Nat.eqb_neq; lia).
  reflexivity.
Qed.

Lemma copySlice_last :
  minLine editor < maxLine editor ->
  copySlice editor settings (maxLine editor)
  = take (ch (cursorTo editor)) (getLine editor (maxLine editor)).
Proof.
  intros Hlt. unfold copySlice. rewrite Nat.eqb_refl.
  replace (maxLine editor =? minLine editor) with false
    by (symmetry; apply Nat.eqb_neq; lia).
  replace (minLine editor =? maxLine editor) with false
    by (symmetry; apply Nat.eqb_neq; lia).
  destruct (removeLeadingWhitespace settings); cbn [andb orb negb]; apply slice_prefix.
Qed.

(** With the cursor on a line and nothing selected the whole line is
    copied, less its leading white space if the setting says so. *)
Lemma copySlice_collapsed :
  cursorFrom editor = cursorTo editor ->
  copySlice editor settings (minLine editor)
  = if removeLeadingWhitespace settings
    then trimStartOf CharClass.space (getLine editor (minLine editor))
    else getLine editor (minLine editor).
Proof.
  intros Hsame. unfold copySlice, sameColumn, maxLine, minLine.
  rewrite Hsame, !Nat.eqb_refl. cbn [andb orb negb].
  destruct (removeLeadingWhitespace settings); [apply replace_leadingSpace | reflexivity].
Qed.

(** *** The loop body, case by case *)

Lemma emits_when_linked (lineNumber : nat) :
  isSeparateLines copy || (lineNumber =? minLine editor) = true ->
  negb ((isLinkOnly copy || isLinkOnlyEmbed copy)
        && negb (lineNumber =? minLine editor)) = true.
Proof.
  destruct (lineNumber =? minLine editor); [now rewrite andb_false_r|].
  destruct copy; simpl; congruence.
Qed.

Lemma forLine_passes (lineNumber : nat) (st : LoopState) :
  passesThrough editor lineNumber = true ->
  forLine editor file settings copy lineNumber st
  = Normal (mkLoop (updatedLines st ++ [getLine editor lineNumber])%list
                   (copiedLines st ++ [copySlice editor settings lineNumber])%list
                   (newID st) (rng st)).
Proof. intros H. unfold forLine. now rewrite H. Qed.

Lemma forLine_unlinked (lineNumber : nat) (st : LoopState) :
  passesThrough editor lineNumber = false ->
  isSeparateLines copy || (lineNumber =? minLine editor) = false ->
  forLine editor file settings copy lineNumber st
  = Normal (mkLoop (updatedLines st ++ [getLine editor lineNumber])%list
                   (if isLinkOnly copy || isLinkOnlyEmbed copy
                    then copiedLines st
                    else (copiedLines st ++ [copySlice editor settings lineNumber])%list)
                   (newID st) (rng st)).
Proof.
  intros Hp Hl. unfold forLine. rewrite Hp, Hl. cbn [bind].
  apply orb_false_iff in Hl as [_ Hmin]. rewrite Hmin.
  now destruct (isLinkOnly copy || isLinkOnlyEmbed copy).
Qed.

Lemma forLine_mint (lineNumber : nat) (st : LoopState) :
  passesThrough editor lineNumber = false ->
  isSeparateLines copy || (lineNumber =? minLine editor) = true ->
  exec blockIDRegex (getLine editor lineNumber) = None ->
  forLine editor file settings copy lineNumber st
  = bind (copiedText settings copy false
            (generateMarkdownLink file "/" ("#^" ++ fst (genID 5 (rng st)))
                                  (linkText settings))
            (copySlice editor settings lineNumber))
         (fun copied =>
            Normal (mkLoop
                      (updatedLines st
                       ++ [(trimEndOf CharClass.space (getLine editor lineNumber)
                            ++ " ^" ++ fst (genID 5 (rng st)))%string])%list
                      (copiedLines st ++ [copied])%list
                      ("^" ++ fst (genID 5 (rng st)))
                      (snd (genID 5 (rng st))))).
Proof.
  intros Hp Hl Hnone. unfold forLine. rewrite Hp, Hl.
  rewrite (linkStep_mint _ _ _ _ Hnone).
  destruct (copiedText settings copy false _ _) as [copied|e]; cbn [bind];
    [|reflexivity].
  now rewrite (emits_when_linked _ Hl).
Qed.

Lemma forLine_reuse (lineNumber : nat) (st : LoopState) (pre tok : string) (c : ascii) :
  passesThrough editor lineNumber = false ->
  isSeparateLines copy || (lineNumber =? minLine editor) = true ->
  getLine editor lineNumber = pre ++ String c (String "^" tok) ->
  CharClass.spaceOrCaret c = true ->
  tok <> "" ->
  all CharClass.blockIdChar tok = true ->
  forLine editor file settings copy lineNumber st
  = bind (copiedText settings copy true
            (generateMarkdownLink file "/" ("#^" ++ tok) (linkText settings))
            (copySlice editor settings lineNumber))
         (fun copied =>
            Normal (mkLoop (updatedLines st ++ [getLine editor lineNumber])%list
                           (copiedLines st ++ [copied])%list
                           (newID st) (rng st))).
Proof.
  intros Hp Hl Hline Hc Hne Htok. unfold forLine. rewrite Hp, Hl, Hline.
  rewrite (linkStep_reuse _ _ _ _ _ _ Hc Hne Htok).
  destruct (copiedText settings copy true _ _) as [copied|e]; cbn [bind];
    [|reflexivity].
  now rewrite (emits_when_linked _ Hl).
Qed.

(** A line with a block ID is not blank. *)
Lemma anchored_not_blank (lineNumber : nat) (pre tok : string) (c : ascii) :
  getLine editor lineNumber = pre ++ String c (String "^" tok) ->
  passesThrough editor lineNumber = false.
Proof.
  intros Hline. unfold passesThrough, match_.
  rewrite exec_blankLine, Hline, all_append. cbn [all].
  replace (CharClass.space "^") with false by reflexivity.
  now rewrite andb_false_r, andb_false_r.
Qed.

Lemma trimEnd_minted (line id : string) :
  String.length id = 5 ->
  all CharClass.idAlphabet id = true ->
  Minted line (trimEndOf CharClass.space line ++ " ^" ++ id).
Proof.
  intros Hlen Hid.
  exists (trimEndOf CharClass.space line),
         (drop (String.length (trimEndOf CharClass.space line)) line), id.
  repeat split; try assumption.
  - apply trimEnd_split.
  - apply trimEnd_trailing.
  - apply trimEnd_endsOutside.
Qed.

(** Every turn of the loop appends one updated line: the line as it
    was, or the line with a new block ID. *)
Lemma forLine_updated (lineNumber : nat) (st st' : LoopState) :
  forLine editor file settings copy lineNumber st = Normal st' ->
  exists updated,
    updatedLines st' = (updatedLines st ++ [updated])%list
    /\ (updated = getLine editor lineNumber
        \/ Minted (getLine editor lineNumber) updated).
Proof.
  intros H.
  destruct (passesThrough editor lineNumber) eqn:Hp.
  { rewrite (forLine_passes _ _ Hp) in H. injection H as <-.
    eexists; split; [reflexivity | now left]. }
  destruct (isSeparateLines copy || (lineNumber =? minLine editor)) eqn:Hl.
  2:{ rewrite (forLine_unlinked _ _ Hp Hl) in H. injection H as <-.
      eexists; split; [reflexivity | now left]. }
  destruct (exec blockIDRegex (getLine editor lineNumber)) as [m|] eqn:Hm.
  - apply exec_blockIDRegex_inv in Hm as (pre & c & tok & Hline & Hc & Hne & Htok & _).
    rewrite (forLine_reuse _ _ _ _ _ Hp Hl Hline Hc Hne Htok) in H.
    destruct (copiedText settings copy true _ _) as [copied|e]; [|discriminate].
    injection H as <-. eexists; split; [reflexivity | now left].
  - rewrite (forLine_mint _ _ Hp Hl Hm) in H.
    destruct (copiedText settings copy false _ _) as [copied|e]; [|discriminate].
    injection H as <-. eexists; split; [reflexivity | right].
    apply trimEnd_minted; apply genID_spec.
Qed.

(** Outside the link-only modes every turn appends one copied line. *)
Lemma forLine_copied (lineNumber : nat) (st st' : LoopState) :
  isLinkOnly copy || isLinkOnlyEmbed copy = false ->
  forLine editor file settings copy lineNumber st = Normal st' ->
  exists copied,
    copiedLines st' = (copiedLines st ++ [copied])%list
    /\ CopyOf editor settings copy lineNumber copied.
Proof.
  intros Hmode H.
  destruct (passesThrough editor lineNumber) eqn:Hp.
  { rewrite (forLine_passes _ _ Hp) in H. injection H as <-.
    eexists; split; [reflexivity | unfold CopyOf; now rewrite Hp]. }
  destruct (isSeparateLines copy || (lineNumber =? minLine editor)) eqn:Hl.
  2:{ rewrite (forLine_unlinked _ _ Hp Hl), Hmode in H. injection H as <-.
      eexists; split; [reflexivity | unfold CopyOf; now rewrite Hp, Hl]. }
  destruct (exec blockIDRegex (getLine editor lineNumber)) as [m|] eqn:Hm.
  - apply exec_blockIDRegex_inv in Hm as (pre & c & tok & Hline & Hc & Hne & Htok & _).
    rewrite (forLine_reuse _ _ _ _ _ Hp Hl Hline Hc Hne Htok) in H.
    destruct (copiedText settings copy true _ _) as [copied|e] eqn:E; [|discriminate].
    injection H as <-.
    eexists; split; [reflexivity | unfold CopyOf; rewrite Hp, Hl; cbn [orb negb]; eauto].
  - rewrite (forLine_mint _ _ Hp Hl Hm) in H.
    destruct (copiedText settings copy false _ _) as [copied|e] eqn:E; [|discriminate].
    injection H as <-.
    eexists; split; [reflexivity | unfold CopyOf; rewrite Hp, Hl; cbn [orb negb]; eauto].
Qed.

(** The loop body throws only if the pattern does not compile. *)
Lemma forLine_total (lineNumber : nat) (st : LoopState) :
  (exists re, newRegExp (lineFormatFrom settings) = inr re) ->
  exists st', forLine editor file settings copy lineNumber st = Normal st'.
Proof.
  intros Hre.
  destruct (passesThrough editor lineNumber) eqn:Hp.
  { rewrite (forLine_passes _ _ Hp). eauto. }
  destruct (isSeparateLines copy || (lineNumber =? minLine editor)) eqn:Hl.
  2:{ rewrite (forLine_unlinked _ _ Hp Hl). eauto. }
  destruct (exec blockIDRegex (getLine editor lineNumber)) as [m|] eqn:Hm.
  - apply exec_blockIDRegex_inv in Hm as (pre & c & tok & Hline & Hc & Hne & Htok & _).
    rewrite (forLine_reuse _ _ _ _ _ Hp Hl Hline Hc Hne Htok).
    destruct (copiedText_total true
                (generateMarkdownLink file "/" ("#^" ++ tok) (linkText settings))
                (copySlice editor settings lineNumber) Hre) as [copied ->].
    cbn [bind]. eauto.
  - rewrite (forLine_mint _ _ Hp Hl Hm).
    destruct (copiedText_total false
                (generateMarkdownLink file "/" ("#^" ++ fst (genID 5 (rng st)))
                                      (linkText settings))
                (copySlice editor settings lineNumber) Hre) as [copied ->].
    cbn [bind]. eauto.
Qed.

(** In every mode a turn only appends to the copied lines. *)
Lemma forLine_extends (lineNumber : nat) (st st' : LoopState) :
  forLine editor file settings copy lineNumber st = Normal st' ->
  exists copied, copiedLines st' = (copiedLines st ++ copied)%list.
Proof.
  intros H.
  destruct (isLinkOnly copy || isLinkOnlyEmbed copy) eqn:Hmode.
  2:{ destruct (forLine_copied _ _ _ Hmode H) as (c & -> & _). eauto. }
  destruct (passesThrough editor lineNumber) eqn:Hp.
  { rewrite (forLine_passes _ _ Hp) in H. injection H as <-. simpl. eauto. }
  destruct (isSeparateLines copy || (lineNumber =? minLine editor)) eqn:Hl.
  2:{ rewrite (forLine_unlinked _ _ Hp Hl), Hmode in H. injection H as <-.
      exists []. simpl. now rewrite app_nil_r. }
  destruct (exec blockIDRegex (getLine editor lineNumber)) as [m|] eqn:Hm.
  - apply exec_blockIDRegex_inv in Hm as (pre & c & tok & Hline & Hc & Hne & Htok & _).
    rewrite (forLine_reuse _ _ _ _ _ Hp Hl Hline Hc Hne Htok) in H.
    destruct (copiedText settings copy true _ _) as [copied|e]; [|discriminate].
    injection H as <-. simpl. eauto.
  - rewrite (forLine_mint _ _ Hp Hl Hm) in H.
    destruct (copiedText settings copy false _ _) as [copied|e]; [|discriminate].
    injection H as <-. simpl. eauto.
Qed.

(** *** The loop *)

Lemma forLines_split (a b : nat) :
  forall start st,
    forLines editor file settings copy (a + b) start st
    = bind (forLines editor file settings copy a start st)
           (forLines editor file settings copy b (start + a)).
Proof.
  induction a as [|a IH]; intros start st.
  - simpl. now rewrite Nat.add_0_r.
  - cbn [Nat.add forLines].
    destruct (forLine editor file settings copy start st) as [st1|e]; cbn [bind];
      [|reflexivity].
    rewrite IH. now rewrite Nat.add_succ_r.
Qed.

(** If every turn appends one element with the property [P] of its line
    to the list [F], the loop appends as many elements as it has turns,
    in the order of the lines. *)
Lemma forLines_appends (F : LoopState -> list string) (P : nat -> string -> Prop) :
  (forall n st st',
      forLine editor file settings copy n st = Normal st' ->
      exists x, F st' = (F st ++ [x])%list /\ P n x) ->
  forall count start st st',
    forLines editor file settings copy count start st = Normal st' ->
    exists xs,
      F st' = (F st ++ xs)%list
      /\ List.length xs = count
      /\ forall k, k < count -> P (start + k) (nth k xs "").
Proof.
  intros Hstep. induction count as [|count IH]; intros start st st' H.
  - simpl in H. injection H as <-. exists []. rewrite app_nil_r.
    repeat split. intros k Hk. lia.
  - cbn [forLines] in H.
    destruct (forLine editor file settings copy start st) as [st1|e] eqn:E;
      cbn [bind] in H; [|discriminate].
    destruct (Hstep _ _ _ E) as (x & Hx & HP).
    destruct (IH _ _ _ H) as (xs & Hxs & Hlen & Hall).
    exists (x :: xs). repeat split.
    + rewrite Hxs, Hx. now rewrite <- app_assoc.
    + simpl. now rewrite Hlen.
    + intros [|k] Hk; simpl.
      * now rewrite Nat.add_0_r.
      * rewrite Nat.add_succ_r. apply (Hall k). lia.
Qed.

Lemma forLines_extends (count : nat) :
  forall start st st',
    forLines editor file settings copy count start st = Normal st' ->
    exists copied, copiedLines st' = (copiedLines st ++ copied)%list.
Proof.
  induction count as [|count IH]; intros start st st' H.
  - simpl in H. injection H as <-. exists []. now rewrite app_nil_r.
  - cbn [forLines] in H.
    destruct (forLine editor file settings copy start st) as [st1|e] eqn:E;
      cbn [bind] in H; [|discriminate].
    destruct (forLine_extends _ _ _ E) as (c1 & H1).
    destruct (IH _ _ _ H) as (c2 & H2).
    exists (c1 ++ c2)%list. rewrite H2, H1. now rewrite app_assoc.
Qed.

Lemma forLines_total (count : nat) :
  (exists re, newRegExp (lineFormatFrom settings) = inr re) ->
  forall start st,
    exists st', forLines editor file settings copy count start st = Normal st'.
Proof.
  intros Hre. induction count as [|count IH]; intros start st.
  - simpl. eauto.
  - cbn [forLines].
    destruct (forLine_total start st Hre) as [st1 ->]. cbn [bind]. apply IH.
Qed.

(** In the link-only modes the lines after the first add nothing to the
    copied lines, unless they pass through as blank lines. *)
Lemma forLines_linkOnly_rest (count : nat) :
  isLinkOnly copy || isLinkOnlyEmbed copy = true ->
  forall start st st',
    minLine editor < start ->
    (forall n, start <= n < start + count -> passesThrough editor n = false) ->
    forLines editor file settings copy count start st = Normal st' ->
    copiedLines st' = copiedLines st.
Proof.
  intros Hmode. induction count as [|count IH]; intros start st st' Hstart Hnone H.
  - simpl in H. now injection H as <-.
  - cbn [forLines] in H.
    assert (Hl : isSeparateLines copy || (start =? minLine editor) = false).
    { replace (start =? minLine editor) with false
        by (symmetry; apply Nat.eqb_neq; lia).
      destruct copy; simpl in *; congruence. }
    rewrite (forLine_unlinked _ _ (Hnone start ltac:(lia)) Hl), Hmode in H.
    cbn [bind] in H.
    apply IH in H; [exact H | lia | intros n Hn; apply Hnone; lia].
Qed.

(** So a selection without such blank lines gives one copied line in the
    link-only modes, made from the first line. *)
Lemma forLines_linkOnly_single (g : Rng) (st : LoopState) :
  isLinkOnly copy || isLinkOnlyEmbed copy = true ->
  minLine editor <= maxLine editor ->
  (forall n, minLine editor <= n <= maxLine editor -> passesThrough editor n = false) ->
  forLines editor file settings copy (maxLine editor + 1 - minLine editor)
           (minLine editor) (mkLoop [] [] "" g) = Normal st ->
  exists link,
    copiedLines st
    = [if isLinkOnlyEmbed copy then "!" ++ link
       else fillPlaceholder (copiedLinkText settings) link].
Proof.
  intros Hmode Hle Hnone H.
  replace (maxLine editor + 1 - minLine editor)
    with (S (maxLine editor - minLine editor)) in H by lia.
  cbn [forLines] in H.
  destruct (forLine editor file settings copy (minLine editor) (mkLoop [] [] "" g))
    as [st1|e] eqn:E; cbn [bind] in H; [|discriminate].
  apply forLines_linkOnly_rest in H;
    [| exact Hmode | lia | intros n Hn; apply Hnone; lia].
  rewrite H. clear H.
  assert (Hp : passesThrough editor (minLine editor) = false) by (apply Hnone; lia).
  assert (Hl : isSeparateLines copy || (minLine editor =? minLine editor) = true)
    by (rewrite Nat.eqb_refl; apply orb_true_r).
  destruct (exec blockIDRegex (getLine editor (minLine editor))) as [m|] eqn:Hm.
  - apply exec_blockIDRegex_inv in Hm as (pre & c & tok & Hline & Hc & Hne & Htok & _).
    rewrite (forLine_reuse _ _ _ _ _ Hp Hl Hline Hc Hne Htok) in E.
    rewrite (copiedText_linkOnly _ _ _ Hmode) in E. cbn [bind] in E.
    injection E as <-. cbn [copiedLines app]. eexists; reflexivity.
  - rewrite (forLine_mint _ _ Hp Hl Hm) in E.
    rewrite (copiedText_linkOnly _ _ _ Hmode) in E. cbn [bind] in E.
    injection E as <-. cbn [copiedLines app]. eexists; reflexivity.
Qed.

(** With a pattern that compiles the call reaches the clipboard and the
    editor with the lists of the loop. *)
Lemma copyForwardLines_applied (g : Rng) :
  PatternCompiles settings ->
  exists st,
    forLines editor file settings copy (maxLine editor + 1 - minLine editor)
             (minLine editor) (mkLoop [] [] "" g) = Normal st
    /\ copyForwardLines editor file settings copy g
       = Applied
           (join LF (copiedLines st))
           (mkTransaction
              [mkChange (mkPos (minLine editor) 0)
                        (mkPos (maxLine editor)
                               (String.length (getLine editor (maxLine editor))))
                        (join LF (updatedLines st))]
              (cursorFrom editor, cursorTo editor))
           (rng st).
Proof.
  intros [Hre Hvalid].
  destruct (forLines_total (maxLine editor + 1 - minLine editor) Hre
                           (minLine editor) (mkLoop [] [] "" g)) as [st Hst].
  exists st. split; [exact Hst|].
  unfold copyForwardLines. now rewrite Hvalid, Hst.
Qed.

End WithHost.

End PluginFacts.

(* ================================================================== *)
(** ** Properties of the specification *)

Module Properties.

Import JsString RegExp StringFacts MatcherFacts LiteralFacts CarryForward PluginFacts.

Section WithHost.

Context {host : Host}.

Variable editor : Editor.
Variable file : TFile.
Variable settings : CarryForwardPluginSettings.

(** C1.  If the pattern of [lineFormatFrom], as [validateRegex] compiles
    it, is not a valid regular expression, [copyForwardLines] returns
    right after a Notice that quotes the pattern and the error of the
    compiler: nothing is written to the clipboard and no transaction
    reaches the editor, whatever the document, the selection and the
    mode. *)
Theorem invalid_pattern_aborts (copy : CopyTypes) (g : Rng) (e : string) :
  newRegExp (updatedRegexString (lineFormatFrom settings)) = inl e ->
  copyForwardLines editor file settings copy g
  = Rejected
      ("Error: 'From' setting is invalid:" ++ LF ++ LF
       ++ (DQUOTE ++ updatedRegexString (lineFormatFrom settings) ++ DQUOTE
           ++ ": " ++ DQUOTE ++ e ++ DQUOTE)
       ++ LF ++ LF ++ "Please update the Carry-Forward settings and try again.")
      30000
  /\ clipboardWrites (copyForwardLines editor file settings copy g) = []
  /\ transactions (copyForwardLines editor file settings copy g) = [].
Proof.
  intros He.
  assert (Hout : copyForwardLines editor file settings copy g
                 = Rejected (invalidNotice (validateRegex (lineFormatFrom settings)))
                            30000).
  { unfold copyForwardLines, validateRegex. now rewrite He. }
  rewrite Hout. repeat split.
  unfold invalidNotice, validateRegex. now rewrite He.
Qed.

(** C7.  In SeparateLines mode, with a pattern that compiles and a
    selection from [minLine] to [maxLine], the clipboard receives
    [maxLine - minLine + 1] copied lines joined by line feeds, the
    k-th one made from the copy slice of line [minLine + k]: blank
    lines pass through and count like the others. *)
Theorem separate_lines_one_copy_per_line (g : Rng) :
  PatternCompiles settings ->
  minLine editor <= maxLine editor ->
  exists updated copied g',
    copyForwardLines editor file settings SeparateLines g
    = Applied
        (join LF copied)
        (mkTransaction
           [mkChange (mkPos (minLine editor) 0)
                     (mkPos (maxLine editor)
                            (String.length (getLine editor (maxLine editor))))
                     (join LF updated)]
           (cursorFrom editor, cursorTo editor))
        g'
    /\ List.length copied = maxLine editor - minLine editor + 1
    /\ List.length updated = maxLine editor - minLine editor + 1
    /\ forall k,
         k <= maxLine editor - minLine editor ->
         CopyOf editor settings SeparateLines (minLine editor + k) (nth k copied "").
Proof.
  intros Hc Hle.
  destruct (copyForwardLines_applied editor file settings SeparateLines g Hc)
    as (st & Hloop & Hout).
  destruct (forLines_appends editor file settings SeparateLines copiedLines
              (CopyOf editor settings SeparateLines)
              (fun n s s' => forLine_copied editor file settings SeparateLines
                                            n s s' eq_refl)
              _ _ _ _ Hloop) as (cs & Hcs & Hlen & Hall).
  destruct (forLines_appends editor file settings SeparateLines updatedLines
              (fun n u => u = getLine editor n \/ Minted (getLine editor n) u)
              (forLine_updated editor file settings SeparateLines)
              _ _ _ _ Hloop) as (us & Hus & Hlenu & _).
  simpl in Hcs, Hus.
  exists us, cs, (rng st). rewrite Hout, Hcs, Hus.
  repeat split; try lia.
  intros k Hk. apply Hall. lia.
Qed.

(** C8.  A line of white space strictly inside a selection of several
    lines goes through a turn of the loop untouched, in every mode: the
    turn appends the line itself to the updated lines and to the copied
    lines and draws nothing from the random source; the call completes
    when the pattern compiles, and when it completes, the line stands at
    its place among the updated lines and among the copied lines. *)
Theorem blank_line_passes_through (copy : CopyTypes) (lineNumber : nat) :
  minLine editor < lineNumber < maxLine editor ->
  all CharClass.space (getLine editor lineNumber) = true ->
  (forall st,
      forLine editor file settings copy lineNumber st
      = Normal (mkLoop (updatedLines st ++ [getLine editor lineNumber])%list
                       (copiedLines st ++ [getLine editor lineNumber])%list
                       (newID st) (rng st)))
  /\ (PatternCompiles settings ->
      forall g, exists clipboard transaction g',
        copyForwardLines editor file settings copy g
        = Applied clipboard transaction g')
  /\ (forall g clipboard transaction g',
         copyForwardLines editor file settings copy g
         = Applied clipboard transaction g' ->
         exists before after copiedBefore copiedAfter,
           List.length before = lineNumber - minLine editor
           /\ map text (changes transaction)
              = [join LF (before ++ getLine editor lineNumber :: after)]
           /\ clipboard
              = join LF (copiedBefore ++ getLine editor lineNumber :: copiedAfter)).
Proof.
  intros [Hmin Hmax] Hblank.
  assert (Hturn : forall st,
             forLine editor file settings copy lineNumber st
             = Normal (mkLoop (updatedLines st ++ [getLine editor lineNumber])%list
                              (copiedLines st ++ [getLine editor lineNumber])%list
                              (newID st) (rng st))).
  { intros st.
    assert (Hp : passesThrough editor lineNumber = true).
    { unfold passesThrough, match_. rewrite exec_blankLine, Hblank.
      replace (lineNumber =? minLine editor) with false
        by (symmetry; apply Nat.eqb_neq; lia).
      reflexivity. }
    rewrite (forLine_passes editor file settings copy _ _ Hp).
    unfold copySlice.
    replace (lineNumber =? minLine editor) with false
      by (symmetry; apply Nat.eqb_neq; lia).
    replace (lineNumber =? maxLine editor) with false
      by (symmetry; apply Nat.eqb_neq; lia).
    now rewrite andb_false_r. }
  split; [exact Hturn|].
  split.
  { intros Hc g.
    destruct (copyForwardLines_applied editor file settings copy g Hc)
      as (st & _ & Hout).
    rewrite Hout. eauto. }
  intros g clipboard transaction g' Hout.
  unfold copyForwardLines in Hout.
  destruct (negb (valid (validateRegex (lineFormatFrom settings)))); [discriminate|].
  replace (maxLine editor + 1 - minLine editor)
    with ((lineNumber - minLine editor) + (1 + (maxLine editor - lineNumber)))
    in Hout by lia.
  rewrite forLines_split in Hout.
  destruct (forLines editor file settings copy (lineNumber - minLine editor)
                     (minLine editor) (mkLoop [] [] "" g)) as [st1|e] eqn:E1;
    cbn [bind] in Hout; [|discriminate].
  replace (minLine editor + (lineNumber - minLine editor)) with lineNumber
    in Hout by lia.
  cbn [Nat.add forLines] in Hout. rewrite Hturn in Hout. cbn [bind] in Hout.
  destruct (forLines editor file settings copy (maxLine editor - lineNumber)
                     (S lineNumber) _) as [st2|e] eqn:E2; [|discriminate].
  injection Hout as <- <- <-.
  destruct (forLines_appends editor file settings copy updatedLines
              (fun _ _ => True)
              (fun n s s' H =>
                 match forLine_updated editor file settings copy n s s' H with
                 | ex_intro _ u (conj Hu _) => ex_intro _ u (conj Hu I)
                 end)
              _ _ _ _ E1) as (before & Hb & Hlenb & _).
  destruct (forLines_extends editor file settings copy _ _ _ _ E1) as (cb & Hcb).
  destruct (forLines_appends editor file settings copy updatedLines
              (fun _ _ => True)
              (fun n s s' H =>
                 match forLine_updated editor file settings copy n s s' H with
                 | ex_intro _ u (conj Hu _) => ex_intro _ u (conj Hu I)
                 end)
              _ _ _ _ E2) as (after & Ha & _ & _).
  destruct (forLines_extends editor file settings copy _ _ _ _ E2) as (ca & Hca).
  cbn [updatedLines copiedLines] in *.
  exists before, after, cb, ca.
  rewrite Ha, Hca, Hb, Hcb. cbn [app map changes text].
  rewrite <- !app_assoc. cbn [app].
  repeat split. exact Hlenb.
Qed.

(** C9.  With [removeLeadingWhitespace] set and the cursor on the line
    ["   - item"] with nothing selected, the copy slice is ["- item"]
    while the updated line keeps its indentation and ends with a
    space and a new block ID; the copied text is made from the
    stripped slice. *)
Theorem item_line_keeps_indent_in_source (copy : CopyTypes) (g : Rng) (n col : nat) :
  removeLeadingWhitespace settings = true ->
  cursorFrom editor = mkPos n col ->
  cursorTo editor = mkPos n col ->
  getLine editor n = "   - item" ->
  PatternCompiles settings ->
  copySlice editor settings n = "- item"
  /\ (exists copied,
         copiedText settings copy false
           (generateMarkdownLink file "/" ("#^" ++ fst (genID 5 g)) (linkText settings))
           "- item" = Normal copied
         /\ copyForwardLines editor file settings copy g
            = Applied copied
                (mkTransaction
                   [mkChange (mkPos n 0) (mkPos n 9)
                             ("   - item ^" ++ fst (genID 5 g))]
                   (mkPos n col, mkPos n col))
                (snd (genID 5 g)))
  /\ String.length (fst (genID 5 g)) = 5
  /\ all CharClass.idAlphabet (fst (genID 5 g)) = true.
Proof.
  intros Hstrip Hfrom Hto Hline Hc.
  assert (Hmin : minLine editor = n) by (unfold minLine; now rewrite Hfrom).
  assert (Hmax : maxLine editor = n) by (unfold maxLine; now rewrite Hto).
  assert (Hcol : sameColumn editor = true)
    by (unfold sameColumn; rewrite Hfrom, Hto; apply Nat.eqb_refl).
  assert (Hslice : copySlice editor settings n = "- item").
  { unfold copySlice. rewrite Hmin, Hmax, Hcol, Hstrip, Hline, Nat.eqb_refl.
    reflexivity. }
  assert (Hp : passesThrough editor n = false).
  { unfold passesThrough. rewrite Hline. reflexivity. }
  assert (Hl : isSeparateLines copy || (n =? minLine editor) = true)
    by (rewrite Hmin, Nat.eqb_refl; apply orb_true_r).
  assert (Hnone : exec blockIDRegex (getLine editor n) = None)
    by (rewrite Hline; reflexivity).
  split; [exact Hslice|]. split; [|apply genID_spec].
  destruct Hc as [Hre Hvalid].
  destruct (copiedText_total settings copy false
              (generateMarkdownLink file "/" ("#^" ++ fst (genID 5 g))
                                    (linkText settings))
              "- item" Hre) as [copied Hcopied].
  exists copied. split; [exact Hcopied|].
  unfold copyForwardLines. rewrite Hvalid. cbn [negb].
  rewrite Hmin, Hmax. replace (n + 1 - n) with 1 by lia.
  cbn [forLines].
  rewrite (forLine_mint editor file settings copy n _ Hp Hl Hnone).
  rewrite Hslice. cbn [rng]. rewrite Hcopied. cbn [bind].
  rewrite Hline, Hfrom, Hto. reflexivity.
Qed.

(** C10.  In every mode, with a pattern that compiles and a selection
    from [minLine] to [maxLine], the transaction replaces the selected
    lines by [maxLine - minLine + 1] updated lines, the k-th one being
    line [minLine + k] as it was or that line with its trailing white
    space replaced by a space, a caret and five characters out of the
    lowercase letters, the digits and the hyphen. *)
Theorem updated_lines_untouched_or_anchored (copy : CopyTypes) (g : Rng) :
  PatternCompiles settings ->
  minLine editor <= maxLine editor ->
  exists updated copied g',
    copyForwardLines editor file settings copy g
    = Applied
        (join LF copied)
        (mkTransaction
           [mkChange (mkPos (minLine editor) 0)
                     (mkPos (maxLine editor)
                            (String.length (getLine editor (maxLine editor))))
                     (join LF updated)]
           (cursorFrom editor, cursorTo editor))
        g'
    /\ List.length updated = maxLine editor - minLine editor + 1
    /\ forall k,
         k <= maxLine editor - minLine editor ->
         nth k updated "" = getLine editor (minLine editor + k)
         \/ Minted (getLine editor (minLine editor + k)) (nth k updated "").
Proof.
  intros Hc Hle.
  destruct (copyForwardLines_applied editor file settings copy g Hc)
    as (st & Hloop & Hout).
  destruct (forLines_appends editor file settings copy updatedLines
              (fun n u => u = getLine editor n \/ Minted (getLine editor n) u)
              (forLine_updated editor file settings copy)
              _ _ _ _ Hloop) as (us & Hus & Hlen & Hall).
  simpl in Hus.
  exists us, (copiedLines st), (rng st). rewrite Hout, Hus.
  repeat split; try lia.
  intros k Hk. apply Hall. lia.
Qed.

(** C2, in the form the code satisfies.  When the block that looks for a
    block ID runs on a line that ends with one (any selected line in
    SeparateLines mode, the first selected line in the other modes), the
    turn keeps the line as it is, draws nothing from the random source
    and asks for the link to the block ID found.  In the link-only modes
    the copied text is made of that link alone; in the other modes it is
    the copy slice without the block ID that [blockIDRegex] finds at its
    end, transformed by the configured replacement.  On a line that
    received a block ID from [genID], the block runs the same way: it
    keeps the line and asks for the link to that very block ID, the link
    of the first run. *)
Theorem anchored_line_is_reused
        (copy : CopyTypes) (lineNumber : nat) (pre tok : string) (c : ascii) :
  isSeparateLines copy || (lineNumber =? minLine editor) = true ->
  getLine editor lineNumber = pre ++ String c (String "^" tok) ->
  CharClass.spaceOrCaret c = true ->
  tok <> "" ->
  all CharClass.blockIdChar tok = true ->
  let link := generateMarkdownLink file "/" ("#^" ++ tok) (linkText settings) in
  let slice := copySlice editor settings lineNumber in
  (forall st,
      forLine editor file settings copy lineNumber st
      = bind (copiedText settings copy true link slice)
             (fun copied =>
                Normal (mkLoop (updatedLines st ++ [getLine editor lineNumber])%list
                               (copiedLines st ++ [copied])%list
                               (newID st) (rng st))))
  /\ (isLinkOnly copy || isLinkOnlyEmbed copy = true ->
      copiedText settings copy true link slice
      = Normal (if isLinkOnlyEmbed copy then "!" ++ link
                else fillPlaceholder (copiedLinkText settings) link))
  /\ (forall re,
         isLinkOnly copy || isLinkOnlyEmbed copy = false ->
         newRegExp (lineFormatFrom settings) = inr re ->
         copiedText settings copy true link slice
         = Normal (replace (replace slice (exec blockIDRegex) "") re
                           (fillPlaceholder (lineFormatTo settings) link)))
  /\ (forall pre' tok' c',
         slice = pre' ++ String c' (String "^" tok') ->
         CharClass.spaceOrCaret c' = true ->
         tok' <> "" ->
         all CharClass.blockIdChar tok' = true ->
         replace slice (exec blockIDRegex) "" = pre' ++ String c' "")
  /\ (forall line g copiedLine' newID' g',
         let id := fst (genID 5 g) in
         let anchored := trimEndOf CharClass.space line ++ " ^" ++ id in
         linkStep file settings copy anchored copiedLine' newID' g'
         = bind (copiedText settings copy true
                   (generateMarkdownLink file "/" ("#^" ++ id) (linkText settings))
                   copiedLine')
                (fun copied => Normal (anchored, copied, newID', g'))).
Proof.
  intros Hl Hline Hc Hne Htok link slice.
  pose proof (anchored_not_blank editor _ _ _ _ Hline) as Hp.
  split; [|split; [|split; [|split]]].
  - intros st. now apply (forLine_reuse editor file settings copy lineNumber st pre tok c).
  - intros Hmode. now apply copiedText_linkOnly.
  - intros re Hmode Hre. now apply copiedText_transform.
  - intros pre' tok' c' E Hc' Hne' Htok'. rewrite E. now apply replace_blockID.
  - intros line g copiedLine' newID' g' id anchored.
    destruct (genID_spec 5 g) as [Hlen Hall].
    apply (linkStep_reuse file settings copy (trimEndOf CharClass.space line) id " ").
    + reflexivity.
    + intros E. unfold id in E. rewrite E in Hlen. discriminate.
    + apply (all_impl CharClass.idAlphabet); [exact idAlphabet_blockIdChar | exact Hall].
Qed.

End WithHost.

(** *** The properties on the deterministic host *)

Import TestHost.

Lemma default_pattern_compiles : PatternCompiles DEFAULT_SETTINGS.
Proof. split; [eexists; reflexivity | reflexivity]. Defined.

Lemma invalid_pattern_aborts_witness :
  newRegExp (updatedRegexString (lineFormatFrom invalidSettings))
  = inl "SyntaxError: Invalid regular expression: /[abc/u: Unterminated character class"
  /\ copyForwardLines itemEditor "note" invalidSettings SeparateLines 0
     = Rejected
         ("Error: 'From' setting is invalid:" ++ LF ++ LF
          ++ (DQUOTE ++ "[abc" ++ DQUOTE ++ ": " ++ DQUOTE
              ++ "SyntaxError: Invalid regular expression: /[abc/u: Unterminated character class"
              ++ DQUOTE)
          ++ LF ++ LF ++ "Please update the Carry-Forward settings and try again.")
         30000
  /\ clipboardWrites (copyForwardLines itemEditor "note" invalidSettings SeparateLines 0) = []
  /\ transactions (copyForwardLines itemEditor "note" invalidSettings SeparateLines 0) = [].
Proof.
  split; [reflexivity|].
  exact (invalid_pattern_aborts (host := host) itemEditor "note" invalidSettings SeparateLines 0 _ eq_refl).
Defined.

Lemma separate_lines_one_copy_per_line_witness :
  PatternCompiles DEFAULT_SETTINGS
  /\ minLine fooBarEditor <= maxLine fooBarEditor
  /\ exists updated copied g',
       copyForwardLines fooBarEditor "note" DEFAULT_SETTINGS SeparateLines 0
       = Applied (join LF copied)
                 (mkTransaction
                    [mkChange (mkPos 0 0) (mkPos 1 3) (join LF updated)]
                    (mkPos 0 0, mkPos 1 3))
                 g'
       /\ List.length copied = 2
       /\ List.length updated = 2
       /\ forall k, k <= 1 -> CopyOf fooBarEditor DEFAULT_SETTINGS SeparateLines (0 + k)
                                     (nth k copied "").
Proof.
  split; [exact default_pattern_compiles|].
  split; [vm_compute; lia|].
  apply (separate_lines_one_copy_per_line (host := host) fooBarEditor "note" DEFAULT_SETTINGS 0).
  - exact default_pattern_compiles.
  - vm_compute; lia.
Defined.

Lemma blank_line_passes_through_witness :
  minLine gapEditor < 1 < maxLine gapEditor
  /\ all CharClass.space (getLine gapEditor 1) = true
  /\ (forall st,
         forLine gapEditor "note" DEFAULT_SETTINGS LinkOnly 1 st
         = Normal (mkLoop (updatedLines st ++ [""])%list
                          (copiedLines st ++ [""])%list
                          (newID st) (rng st)))
  /\ (PatternCompiles DEFAULT_SETTINGS ->
      forall g, exists clipboard transaction g',
        copyForwardLines gapEditor "note" DEFAULT_SETTINGS LinkOnly g
        = Applied clipboard transaction g')
  /\ (forall g clipboard transaction g',
         copyForwardLines gapEditor "note" DEFAULT_SETTINGS LinkOnly g
         = Applied clipboard transaction g' ->
         exists before after copiedBefore copiedAfter,
           List.length before = 1 - 0
           /\ map text (changes transaction) = [join LF (before ++ "" :: after)]
           /\ clipboard = join LF (copiedBefore ++ "" :: copiedAfter)).
Proof.
  split; [vm_compute; lia|]. split; [reflexivity|].
  exact (blank_line_passes_through (host := host) gapEditor "note" DEFAULT_SETTINGS
           LinkOnly 1 ltac:(vm_compute; lia) eq_refl).
Defined.

Lemma item_line_keeps_indent_in_source_witness :
  removeLeadingWhitespace DEFAULT_SETTINGS = true
  /\ cursorFrom itemEditor = mkPos 0 0
  /\ cursorTo itemEditor = mkPos 0 0
  /\ getLine itemEditor 0 = "   - item"
  /\ PatternCompiles DEFAULT_SETTINGS
  /\ copySlice itemEditor DEFAULT_SETTINGS 0 = "- item"
  /\ (exists copied,
         copiedText DEFAULT_SETTINGS SeparateLines false
           (generateMarkdownLink "note" "/" ("#^" ++ fst (genID 5 0)) "")
           "- item" = Normal copied
         /\ copyForwardLines itemEditor "note" DEFAULT_SETTINGS SeparateLines 0
            = Applied copied
                (mkTransaction
                   [mkChange (mkPos 0 0) (mkPos 0 9) ("   - item ^" ++ fst (genID 5 0))]
                   (mkPos 0 0, mkPos 0 0))
                (snd (genID 5 0)))
  /\ String.length (fst (genID 5 0)) = 5
  /\ all CharClass.idAlphabet (fst (genID 5 0)) = true.
Proof.
  repeat (split; [reflexivity || exact default_pattern_compiles|]).
  exact (proj2 (item_line_keeps_indent_in_source (host := host) itemEditor "note" DEFAULT_SETTINGS
                  SeparateLines 0 0 0 eq_refl eq_refl eq_refl eq_refl
                  default_pattern_compiles)).
Defined.

(** The same run on the deterministic host, spelled out. *)
Example item_line_run :
  copyForwardLines itemEditor "note" DEFAULT_SETTINGS SeparateLines 0
  = Applied "- item (see [[note#^abcde]])"
            (mkTransaction [mkChange (mkPos 0 0) (mkPos 0 9) "   - item ^abcde"]
                           (mkPos 0 0, mkPos 0 0))
            5.
Proof. reflexivity. Qed.

Lemma updated_lines_untouched_or_anchored_witness :
  PatternCompiles DEFAULT_SETTINGS
  /\ minLine gapEditor <= maxLine gapEditor
  /\ exists updated copied g',
       copyForwardLines gapEditor "note" DEFAULT_SETTINGS CombinedLines 0
       = Applied (join LF copied)
                 (mkTransaction
                    [mkChange (mkPos 0 0) (mkPos 2 3) (join LF updated)]
                    (mkPos 0 0, mkPos 2 3))
                 g'
       /\ List.length updated = 3
       /\ forall k, k <= 2 ->
                    nth k updated "" = getLine gapEditor (0 + k)
                    \/ Minted (getLine gapEditor (0 + k)) (nth k updated "").
Proof.
  split; [exact default_pattern_compiles|].
  split; [vm_compute; lia|].
  apply (updated_lines_untouched_or_anchored (host := host) gapEditor "note" DEFAULT_SETTINGS
                                             CombinedLines 0).
  - exact default_pattern_compiles.
  - vm_compute; lia.
Defined.

Lemma anchored_line_is_reused_witness :
  isSeparateLines SeparateLines || (0 =? minLine anchoredEditor) = true
  /\ getLine anchoredEditor 0 = "foo" ++ String " " (String "^" "abc12")
  /\ CharClass.spaceOrCaret " " = true
  /\ "abc12" <> ""
  /\ all CharClass.blockIdChar "abc12" = true
  /\ let link := generateMarkdownLink "note" "/" "#^abc12" "" in
     let slice := copySlice anchoredEditor DEFAULT_SETTINGS 0 in
     (forall st,
         forLine anchoredEditor "note" DEFAULT_SETTINGS SeparateLines 0 st
         = bind (copiedText DEFAULT_SETTINGS SeparateLines true link slice)
                (fun copied =>
                   Normal (mkLoop (updatedLines st ++ ["foo ^abc12"])%list
                                  (copiedLines st ++ [copied])%list
                                  (newID st) (rng st))))
     /\ (isLinkOnly SeparateLines || isLinkOnlyEmbed SeparateLines = true ->
         copiedText DEFAULT_SETTINGS SeparateLines true link slice
         = Normal (fillPlaceholder "(see {{LINK}})" link))
     /\ (forall re,
            isLinkOnly SeparateLines || isLinkOnlyEmbed SeparateLines = false ->
            newRegExp "\s*$" = inr re ->
            copiedText DEFAULT_SETTINGS SeparateLines true link slice
            = Normal (replace (replace slice (exec blockIDRegex) "") re
                              (fillPlaceholder " (see {{LINK}})" link)))
     /\ (forall pre' tok' c',
            slice = pre' ++ String c' (String "^" tok') ->
            CharClass.spaceOrCaret c' = true ->
            tok' <> "" ->
            all CharClass.blockIdChar tok' = true ->
            replace slice (exec blockIDRegex) "" = pre' ++ String c' "")
     /\ (forall line g copiedLine' newID' g',
            let id := fst (genID 5 g) in
            let anchored := trimEndOf CharClass.space line ++ " ^" ++ id in
            linkStep "note" DEFAULT_SETTINGS SeparateLines anchored copiedLine' newID' g'
            = bind (copiedText DEFAULT_SETTINGS SeparateLines true
                      (generateMarkdownLink "note" "/" ("#^" ++ id) "")
                      copiedLine')
                   (fun copied => Normal (anchored, copied, newID', g'))).
Proof.
  split; [reflexivity|]. split; [reflexivity|]. split; [reflexivity|].
  split; [discriminate|]. split; [reflexivity|].
  exact (anchored_line_is_reused (host := host) anchoredEditor "note" DEFAULT_SETTINGS
           SeparateLines 0 "foo" "abc12" " "
           eq_refl eq_refl eq_refl ltac:(discriminate) eq_refl).
Defined.

(** The whole run on that line, spelled out: the block ID is not copied. *)
Example anchored_line_run :
  copyForwardLines anchoredEditor "note" DEFAULT_SETTINGS SeparateLines 0
  = Applied "foo (see [[note#^abc12]])"
            (mkTransaction [mkChange (mkPos 0 0) (mkPos 0 10) "foo ^abc12"]
                           (mkPos 0 0, mkPos 0 0))
            0.
Proof. reflexivity. Qed.

(** Two runs on the same line: the second run, on the line as the first
    one left it and with the random source where the first one left it,
    copies the same link and changes nothing. *)
Example two_runs_same_link :
  copyForwardLines fooEditor "note" DEFAULT_SETTINGS SeparateLines 0
  = Applied "foo (see [[note#^abcde]])"
            (mkTransaction [mkChange (mkPos 0 0) (mkPos 0 3) "foo ^abcde"]
                           (mkPos 0 0, mkPos 0 0))
            5
  /\ copyForwardLines fooAnchoredEditor "note" DEFAULT_SETTINGS SeparateLines 5
     = Applied "foo (see [[note#^abcde]])"
               (mkTransaction [mkChange (mkPos 0 0) (mkPos 0 10) "foo ^abcde"]
                              (mkPos 0 0, mkPos 0 0))
               5.
Proof. split; reflexivity. Qed.

(** When the selection is the block ID alone, the copy slice starts at the
    caret, [blockIDRegex] finds nothing to look behind, and the block ID
    stays in the copied text. *)
Example anchor_selected_alone_run :
  copyForwardLines anchorSelectedEditor "note" DEFAULT_SETTINGS SeparateLines 0
  = Applied "^abc12 (see [[note#^abc12]])"
            (mkTransaction [mkChange (mkPos 0 0) (mkPos 0 10) "foo ^abc12"]
                           (mkPos 0 4, mkPos 0 10))
            0.
Proof. reflexivity. Qed.

(** C2, as it is worded, fails: in CombinedLines mode the lines after the
    first are copied as they are, block ID included. *)
Lemma anchor_copied_in_combined_mode :
  ~ AnchorsStayOut anchoredSecondEditor "note" DEFAULT_SETTINGS CombinedLines 0.
Proof.
  intros H.
  destruct (H 1 (mkMatch 4 "^abc12" [] None)) as (clipboard & tx & g' & Hout & Hin).
  - vm_compute; lia.
  - reflexivity.
  - vm_compute in Hout. injection Hout as <- _ _.
    vm_compute in Hin. discriminate.
Qed.

(** C3.  In the link-only modes a blank line of the selection is copied
    all the same: three lines selected, the middle one empty, give two
    copied lines. *)
Theorem link_only_copies_blank_lines :
  forLines gapEditor "note" DEFAULT_SETTINGS LinkOnly 3 0 (mkLoop [] [] "" 0)
  = Normal (mkLoop ["foo ^abcde"; ""; "bar"] ["(see [[note#^abcde]])"; ""] "^abcde" 5)
  /\ clipboardWrites (copyForwardLines gapEditor "note" DEFAULT_SETTINGS LinkOnly 0)
     = ["(see [[note#^abcde]])" ++ LF].
Proof. split; reflexivity. Qed.

(** C4.  The copy slice of the first line of a selection of several
    lines stops one character before the end of the line. *)
Theorem first_line_loses_last_character :
  copySlice fooBarEditor DEFAULT_SETTINGS 0 = "fo"
  /\ clipboardWrites (copyForwardLines fooBarEditor "note" DEFAULT_SETTINGS CombinedLines 0)
     = ["fo (see [[note#^abcde]])" ++ LF ++ "bar"].
Proof. split; reflexivity. Qed.

(** C5.  A line that is a block ID and nothing else is not recognised as
    anchored, and receives a second block ID; a block ID that follows a
    caret is recognised. *)
Theorem bare_block_id_not_recognised :
  match_ "^abc12" (exec blockIDRegex) = None
  /\ copyForwardLines bareAnchorEditor "note" DEFAULT_SETTINGS SeparateLines 0
     = Applied "^abc12 (see [[note#^abcde]])"
               (mkTransaction [mkChange (mkPos 0 0) (mkPos 0 6) "^abc12 ^abcde"]
                              (mkPos 0 0, mkPos 0 0))
               5
  /\ match_ "x^^abc12" (exec blockIDRegex) = Some (mkMatch 2 "^abc12" [] None).
Proof. repeat split; reflexivity. Qed.

(** C6.  The link is spliced into a replacement template, so the dollar
    patterns it contains are expanded: a link text that names a price
    loses it. *)
Theorem placeholder_expands_dollar_patterns :
  fillPlaceholder "(see {{LINK}})" "[[note#^ab12c|Price $100]]"
  = "(see [[note#^ab12c|Price 00]])"
  /\ clipboardWrites (copyForwardLines itemEditor "note" pricedSettings LinkOnly 0)
     = ["(see [[note#^abcde|Price 00]])"].
Proof. split; reflexivity. Qed.

(** The substitution of the specification's example. *)
Example placeholder_example :
  fillPlaceholder "(see {{LINK|alt}})" "[[note#^ab12c]]" = "(see [[note#^ab12c|alt]])".
Proof. reflexivity. Qed.

End Properties.

(* ================================================================== *)
(** ** Further facts *)

Module MoreFacts.

Import JsString RegExp StringFacts MatcherFacts LiteralFacts CarryForward PluginFacts.
Import PluginShell Vocabulary.

(** *** Cutting strings *)

Lemma take_drop (n : nat) (s : string) : take n s ++ drop n s = s.
Proof.
  revert n; induction s as [|c s IH]; intros [|n]; simpl; try reflexivity.
  now rewrite IH.
Qed.

Lemma length_drop (n : nat) (s : string) :
  String.length (drop n s) = String.length s - n.
Proof.
  revert n; induction s as [|c s IH]; intros [|n]; simpl; try reflexivity.
  apply IH.
Qed.

(** [s.slice(a, b)] is a piece of [s]. *)
Lemma slice_within (s : string) (a b : Z) :
  exists before after, s = before ++ slice s a b ++ after.
Proof.
  unfold slice.
  set (from := clamp (String.length s) a).
  set (n := clamp (String.length s) b - from).
  exists (take from s), (drop n (drop from s)).
  now rewrite take_drop, take_drop.
Qed.

(** *** The rewriting of validateRegex *)

Section Unescape.

Variables x y : ascii.
Hypothesis y_not_x : Ascii.eqb y x = false.
Hypothesis y_not_backslash : Ascii.eqb y "\" = false.

(** What the rewriting of another letter makes of the first character. *)
Lemma unescape_head (x' y' b : ascii) (t : string) :
  exists h r,
    unescape x' y' (String b t) = String h r /\ (h = b \/ h = y').
Proof.
  cbn [unescape]. destruct (Ascii.eqb b "\").
  - destruct t as [|c t'].
    + eexists _, _. split; [reflexivity | now left].
    + destruct (Ascii.eqb c x').
      * eexists _, _. split; [reflexivity | now right].
      * eexists _, _. split; [reflexivity | now left].
  - eexists _, _. split; [reflexivity | now left].
Qed.

Lemma noEscape_cons (a h : ascii) (r : string) :
  (Ascii.eqb a "\" && Ascii.eqb h x = false) ->
  noEscape x (String h r) = true ->
  noEscape x (String a (String h r)) = true.
Proof.
  intros Hp Hr. change (noEscape x (String a (String h r)))
    with (negb (Ascii.eqb a "\" && Ascii.eqb h x) && noEscape x (String h r)).
  now rewrite Hp, Hr.
Qed.

Lemma noEscape_tail (a : ascii) (t : string) :
  noEscape x (String a t) = true -> noEscape x t = true.
Proof.
  cbn [noEscape]. intros H. now apply andb_true_iff in H as [_ H].
Qed.

(** Rewriting another escape, whose replacement is neither [x] nor a
    backslash, brings no backslash in front of an [x]. *)
Lemma noEscape_unescape (x' y' : ascii) (n : nat) :
  Ascii.eqb y' x = false ->
  Ascii.eqb y' "\" = false ->
  forall s,
    String.length s <= n ->
    (Ascii.eqb x' x = true \/ noEscape x s = true) ->
    noEscape x (unescape x' y' s) = true.
Proof.
  intros Hy'x Hy'b. induction n as [|n IH]; intros s Hlen Hs.
  - destruct s; [reflexivity | simpl in Hlen; lia].
  - destruct s as [|a t]; [reflexivity|].
    simpl in Hlen.
    assert (Htail : Ascii.eqb x' x = true \/ noEscape x t = true)
      by (destruct Hs as [Hs|Hs]; [now left | right; now apply noEscape_tail in Hs]).
    cbn [unescape]. destruct (Ascii.eqb a "\") eqn:Ha.
    + destruct t as [|b t']; [reflexivity|].
      simpl in Hlen.
      destruct (Ascii.eqb b x') eqn:Hb.
      * (* the pair is replaced by [y'] *)
        assert (Ht' : noEscape x (unescape x' y' t') = true).
        { apply IH; [lia|]. destruct Htail as [H|H]; [now left|].
          right. now apply noEscape_tail in H. }
        destruct (unescape x' y' t') as [|h r] eqn:E; [reflexivity|].
        apply noEscape_cons; [now rewrite Hy'b | exact Ht'].
      * (* the backslash stays, followed by [b] or by [y'] *)
        assert (Ht : noEscape x (unescape x' y' (String b t')) = true)
          by (apply IH; [simpl; lia | exact Htail]).
        destruct (unescape_head x' y' b t') as (h & r & E & Hh).
        rewrite E in *. apply noEscape_cons; [|exact Ht].
        rewrite Ha. cbn [andb].
        destruct Hh as [->| ->]; [|exact Hy'x].
        destruct Hs as [Hs|Hs].
        -- apply Ascii.eqb_eq in Hs. now subst x'.
        -- cbn [noEscape] in Hs. rewrite Ha in Hs. cbn [andb] in Hs.
           apply andb_true_iff in Hs as [Hs _]. now apply negb_true_iff in Hs.
    + assert (Ht : noEscape x (unescape x' y' t) = true)
        by (apply IH; [lia | exact Htail]).
      destruct (unescape x' y' t) as [|h r] eqn:E; [reflexivity|].
      apply noEscape_cons; [now rewrite Ha | exact Ht].
Qed.

(** Where no backslash is followed by [x], nothing is rewritten. *)
Lemma unescape_noEscape (s : string) :
  noEscape x s = true -> unescape x y s = s.
Proof.
  induction s as [|a t IH]; intros H; [reflexivity|].
  pose proof (noEscape_tail _ _ H) as Ht.
  cbn [unescape]. destruct (Ascii.eqb a "\") eqn:Ha.
  - destruct t as [|b t']; [reflexivity|].
    cbn [noEscape] in H. rewrite Ha in H. cbn [andb] in H.
    apply andb_true_iff in H as [Hb _]. apply negb_true_iff in Hb.
    rewrite Hb. now rewrite IH.
  - now rewrite IH.
Qed.

End Unescape.

(** *** What a turn of the loop does to the line *)

Lemma append_inv_head (a b c : string) : a ++ b = a ++ c -> b = c.
Proof.
  induction a as [|x a IH]; simpl; intros H; [exact H|].
  injection H as H. now apply IH.
Qed.

(** A line with a new block ID is not the line it was. *)
Lemma Minted_neq (original updated : string) :
  Minted original updated -> updated <> original.
Proof.
  intros (body & ws & id & -> & Hws & _ & -> & _ & _) E.
  apply append_inv_head in E. rewrite <- E in Hws. discriminate.
Qed.

Section WithHost.

Context {host : Host}.

Variable editor : Editor.
Variable file : TFile.
Variable settings : CarryForwardPluginSettings.
Variable copy : CopyTypes.

(** A turn that completes either keeps the line, the random source and
    [newID], or appends a block ID made of the next five draws. *)
Lemma forLine_exact (lineNumber : nat) (st st' : LoopState) :
  forLine editor file settings copy lineNumber st = Normal st' ->
  if mints editor copy lineNumber
  then updatedLines st'
       = (updatedLines st
          ++ [(trimEndOf CharClass.space (getLine editor lineNumber)
               ++ " ^" ++ fst (genID 5 (rng st)))%string])%list
       /\ rng st' = snd (genID 5 (rng st))
       /\ newID st' = "^" ++ fst (genID 5 (rng st))
  else updatedLines st' = (updatedLines st ++ [getLine editor lineNumber])%list
       /\ rng st' = rng st
       /\ newID st' = newID st.
Proof.
  intros H. unfold mints, linked, anchored.
  destruct (passesThrough editor lineNumber) eqn:Hp.
  { rewrite (forLine_passes editor file settings copy _ _ Hp) in H.
    injection H as <-. cbn [negb andb]. now repeat split. }
  destruct (isSeparateLines copy || (lineNumber =? minLine editor)) eqn:Hl.
  2:{ rewrite (forLine_unlinked editor file settings copy _ _ Hp Hl) in H.
      injection H as <-. cbn [negb andb]. now repeat split. }
  cbn [negb andb]. unfold match_.
  destruct (exec blockIDRegex (getLine editor lineNumber)) as [m|] eqn:Hm.
  - apply exec_blockIDRegex_inv in Hm as (pre & c & tok & Hline & Hc & Hne & Htok & _).
    rewrite (forLine_reuse editor file settings copy _ _ _ _ _ Hp Hl Hline Hc Hne Htok) in H.
    destruct (copiedText settings copy true _ _) as [copied|e]; [|discriminate].
    injection H as <-. cbn [negb]. now repeat split.
  - rewrite (forLine_mint editor file settings copy _ _ Hp Hl Hm) in H.
    destruct (copiedText settings copy false _ _) as [copied|e]; [|discriminate].
    injection H as <-. cbn [negb]. now repeat split.
Qed.

(** The loop only appends to the updated lines. *)
Lemma forLines_updated_extends (count : nat) :
  forall start st st',
    forLines editor file settings copy count start st = Normal st' ->
    exists us,
      updatedLines st' = (updatedLines st ++ us)%list /\ List.length us = count.
Proof.
  intros start st st' H.
  destruct (forLines_appends editor file settings copy updatedLines (fun _ _ => True)
              (fun n s s' Hn =>
                 match forLine_updated editor file settings copy n s s' Hn with
                 | ex_intro _ u (conj Hu _) => ex_intro _ u (conj Hu I)
                 end)
              _ _ _ _ H) as (us & Hus & Hlen & _).
  eauto.
Qed.

(** Outside SeparateLines mode the turns after the first keep every
    line, the random source and [newID]. *)
Lemma forLines_rest_kept (count : nat) :
  isSeparateLines copy = false ->
  forall start st st',
    minLine editor < start ->
    forLines editor file settings copy count start st = Normal st' ->
    updatedLines st' = (updatedLines st ++ map (getLine editor) (seq start count))%list
    /\ rng st' = rng st
    /\ newID st' = newID st.
Proof.
  intros Hmode. induction count as [|count IH]; intros start st st' Hstart H.
  - simpl in H. injection H as <-. simpl. now rewrite app_nil_r.
  - cbn [forLines] in H.
    destruct (forLine editor file settings copy start st) as [st1|e] eqn:E;
      cbn [bind] in H; [|discriminate].
    apply forLine_exact in E.
    assert (Hm : mints editor copy start = false).
    { unfold mints, linked. rewrite Hmode.
      replace (start =? minLine editor) with false
        by (symmetry; apply Nat.eqb_neq; lia).
      cbn [orb]. now rewrite andb_false_r. }
    rewrite Hm in E. destruct E as (Hu & Hr & Hn).
    apply IH in H as (Hu' & Hr' & Hn'); [|lia].
    rewrite Hu', Hu, Hr', Hr, Hn', Hn. cbn [seq map].
    now rewrite <- app_assoc.
Qed.

End WithHost.

(** *** A second call on the lines a first call left *)

Section Rerun.

Context {host : Host}.
Variable editor : Editor.
Variable file : TFile.
Variable settings : CarryForwardPluginSettings.
Variable copy : CopyTypes.
Variable editor' : Editor.
Hypothesis same_from : cursorFrom editor' = cursorFrom editor.
Hypothesis same_to : cursorTo editor' = cursorTo editor.
Hypothesis compiles : exists re, newRegExp (lineFormatFrom settings) = inr re.

Lemma rerun_minLine : minLine editor' = minLine editor.
Proof. unfold minLine. now rewrite same_from. Qed.

Lemma rerun_maxLine : maxLine editor' = maxLine editor.
Proof. unfold maxLine. now rewrite same_to. Qed.

(** On the line that a turn of the first call left, the turn of the
    second call keeps the line and the random source. *)
Lemma forLine_rerun (lineNumber : nat) (st1 st1' : LoopState) (u : string) :
  forLine editor file settings copy lineNumber st1 = Normal st1' ->
  updatedLines st1' = (updatedLines st1 ++ [u])%list ->
  getLine editor' lineNumber = u ->
  forall st2,
    exists st2',
      forLine editor' file settings copy lineNumber st2 = Normal st2'
      /\ updatedLines st2' = (updatedLines st2 ++ [u])%list
      /\ rng st2' = rng st2.
Proof.
  intros H1 Hu Hline st2.
  destruct (forLine_total editor' file settings copy lineNumber st2 compiles)
    as [st2' H2].
  exists st2'. split; [exact H2|].
  apply forLine_exact in H2.
  assert (Hm : mints editor' copy lineNumber = false).
  { apply forLine_exact in H1.
    destruct (mints editor copy lineNumber) eqn:Hm1.
    - (* the first call made a block ID, which the second call finds *)
      destruct H1 as (Hu1 & _ & _). rewrite Hu in Hu1.
      apply app_inv_head in Hu1. injection Hu1 as Hu1.
      unfold mints, anchored, match_. rewrite Hline, Hu1.
      destruct (genID_spec 5 (rng st1)) as [Hlen Hall].
      change (trimEndOf CharClass.space (getLine editor lineNumber)
              ++ " ^" ++ fst (genID 5 (rng st1)))
        with (trimEndOf CharClass.space (getLine editor lineNumber)
              ++ String " " (String "^" (fst (genID 5 (rng st1))))).
      rewrite exec_blockIDRegex; [now rewrite andb_false_r | reflexivity | |].
      + intros E. rewrite E in Hlen. discriminate.
      + apply (all_impl CharClass.idAlphabet);
          [exact idAlphabet_blockIdChar | exact Hall].
    - (* the first call kept the line, and so does the second *)
      destruct H1 as (Hu1 & _ & _). rewrite Hu in Hu1.
      apply app_inv_head in Hu1. injection Hu1 as Hu1.
      rewrite <- Hm1. unfold mints, linked, passesThrough.
      now rewrite rerun_minLine, rerun_maxLine, Hline, Hu1. }
  rewrite Hm in H2. destruct H2 as (H2 & Hr & _).
  now rewrite H2, Hline, Hr.
Qed.

Lemma forLines_rerun (count : nat) :
  forall start st1 st1' us,
    forLines editor file settings copy count start st1 = Normal st1' ->
    updatedLines st1' = (updatedLines st1 ++ us)%list ->
    (forall k, k < count -> getLine editor' (start + k) = nth k us "") ->
    forall st2,
      exists st2',
        forLines editor' file settings copy count start st2 = Normal st2'
        /\ updatedLines st2' = (updatedLines st2 ++ us)%list
        /\ rng st2' = rng st2.
Proof.
  induction count as [|count IH]; intros start st1 st1' us H1 Hus Hlines st2.
  - simpl in H1. injection H1 as <-.
    rewrite <- (app_nil_r (updatedLines st1)) in Hus at 1.
    apply app_inv_head in Hus. subst us.
    exists st2. simpl. now rewrite app_nil_r.
  - cbn [forLines] in H1.
    destruct (forLine editor file settings copy start st1) as [stm|e] eqn:E;
      cbn [bind] in H1; [|discriminate].
    destruct (forLine_updated editor file settings copy _ _ _ E) as (u & Hu & _).
    destruct (forLines_updated_extends editor file settings copy _ _ _ _ H1)
      as (us' & Hus' & _).
    assert (Heq : us = u :: us').
    { rewrite Hus', Hu, <- app_assoc in Hus. now apply app_inv_head in Hus. }
    subst us.
    assert (Hu0 : getLine editor' start = u).
    { specialize (Hlines 0 ltac:(lia)). now rewrite Nat.add_0_r in Hlines. }
    destruct (forLine_rerun _ _ _ _ E Hu Hu0 st2) as (st2m & E2 & Hu2 & Hr2).
    destruct (IH (S start) stm st1' us' H1 Hus') with (st2 := st2m)
      as (st2' & H2 & Hu2' & Hr2').
    { intros k Hk. specialize (Hlines (S k) ltac:(lia)).
      now rewrite Nat.add_succ_r in Hlines. }
    exists st2'. cbn [forLines]. rewrite E2. cbn [bind].
    split; [exact H2|]. rewrite Hu2', Hu2, Hr2', Hr2.
    now rewrite <- app_assoc.
Qed.

End Rerun.

(** *** Settings that a mode does not read *)

Section Unread.

Context {host : Host}.
Variable editor : Editor.
Variable file : TFile.
Variable settings : CarryForwardPluginSettings.
Variable copy : CopyTypes.

(** A line that leaves the loop body early is copied without a look at
    [removeLeadingWhitespace]. *)
Lemma copySlice_passes (settings' : CarryForwardPluginSettings) (lineNumber : nat) :
  passesThrough editor lineNumber = true ->
  copySlice editor settings' lineNumber = copySlice editor settings lineNumber.
Proof.
  unfold passesThrough, copySlice. intros H.
  apply andb_true_iff in H as [_ H]. apply negb_true_iff in H.
  destruct (lineNumber =? minLine editor) eqn:En;
    destruct (minLine editor =? maxLine editor) eqn:Em;
    cbn [andb negb orb] in *; try discriminate.
  - reflexivity.
  - now rewrite !andb_false_r.
  - now rewrite !andb_false_r.
Qed.

Lemma forLine_copiedLinkText (value : string) (lineNumber : nat) (st : LoopState) :
  isLinkOnly copy || isLinkOnlyEmbed copy = false ->
  forLine editor file (setCopiedLinkText value settings) copy lineNumber st
  = forLine editor file settings copy lineNumber st.
Proof.
  intros Hmode. unfold forLine, linkStep, copiedText, copySlice.
  rewrite Hmode. reflexivity.
Qed.

Lemma forLines_copiedLinkText (value : string) (count : nat) :
  isLinkOnly copy || isLinkOnlyEmbed copy = false ->
  forall start st,
    forLines editor file (setCopiedLinkText value settings) copy count start st
    = forLines editor file settings copy count start st.
Proof.
  intros Hmode. induction count as [|count IH]; intros start st; [reflexivity|].
  cbn [forLines]. rewrite forLine_copiedLinkText by assumption.
  destruct (forLine editor file settings copy start st); cbn [bind];
    [apply IH | reflexivity].
Qed.

Lemma forLine_linkOnly_settings (to : string) (b : bool)
      (lineNumber : nat) (st : LoopState) :
  isLinkOnly copy || isLinkOnlyEmbed copy = true ->
  forLine editor file (setLineFormatTo to (setRemoveLeadingWhitespace b settings))
          copy lineNumber st
  = forLine editor file settings copy lineNumber st.
Proof.
  intros Hmode.
  set (settings' := setLineFormatTo to (setRemoveLeadingWhitespace b settings)).
  destruct (passesThrough editor lineNumber) eqn:Hp.
  { rewrite !forLine_passes by assumption.
    now rewrite (copySlice_passes settings'). }
  destruct (isSeparateLines copy || (lineNumber =? minLine editor)) eqn:Hl.
  2:{ rewrite !forLine_unlinked by assumption. now rewrite Hmode. }
  unfold forLine, linkStep. rewrite Hp, Hl.
  destruct (match_ (getLine editor lineNumber) (exec blockIDRegex)) as [m|].
  - rewrite !copiedText_linkOnly by assumption. reflexivity.
  - destruct (genID 5 (rng st)) as [id g'].
    rewrite !copiedText_linkOnly by assumption. reflexivity.
Qed.

Lemma forLines_linkOnly_settings (to : string) (b : bool) (count : nat) :
  isLinkOnly copy || isLinkOnlyEmbed copy = true ->
  forall start st,
    forLines editor file (setLineFormatTo to (setRemoveLeadingWhitespace b settings))
             copy count start st
    = forLines editor file settings copy count start st.
Proof.
  intros Hmode. induction count as [|count IH]; intros start st; [reflexivity|].
  cbn [forLines]. rewrite forLine_linkOnly_settings by assumption.
  destruct (forLine editor file settings copy start st); cbn [bind];
    [apply IH | reflexivity].
Qed.

(** In CombinedLines mode every line after the first is copied and put
    back as it is. *)
Lemma forLines_combined_rest (count : nat) :
  copy = CombinedLines ->
  forall start st,
    minLine editor < start ->
    forLines editor file settings copy count start st
    = Normal (mkLoop
                (updatedLines st ++ map (getLine editor) (seq start count))%list
                (copiedLines st
                 ++ map (copySlice editor settings) (seq start count))%list
                (newID st) (rng st)).
Proof.
  intros ->. induction count as [|count IH]; intros start st Hstart.
  - simpl. rewrite !app_nil_r. now destruct st.
  - cbn [forLines].
    assert (Hl : isSeparateLines CombinedLines || (start =? minLine editor) = false)
      by (cbn [isSeparateLines orb]; apply Nat.eqb_neq; lia).
    assert (E : forLine editor file settings CombinedLines start st
                = Normal (mkLoop
                            (updatedLines st ++ [getLine editor start])%list
                            (copiedLines st ++ [copySlice editor settings start])%list
                            (newID st) (rng st))).
    { destruct (passesThrough editor start) eqn:Hp.
      - now apply forLine_passes.
      - now rewrite forLine_unlinked. }
    rewrite E. cbn [bind]. rewrite IH by lia.
    cbn [updatedLines copiedLines newID rng seq map].
    now rewrite <- !app_assoc.
Qed.

End Unread.

(** *** A template without the placeholder *)

Lemma search_without (c : ascii) (l : string) (r : regex) (s : string) :
  has c s = false ->
  forall seen i, search (Seq (Lits (String c l)) r) seen s i = None.
Proof.
  induction s as [|a t IH]; intros H seen i.
  - reflexivity.
  - simpl in H. apply orb_false_iff in H as [Ha Ht].
    rewrite search_next.
    + now apply IH.
    + rewrite run_Seq. now apply run_Lits_mismatch.
Qed.

(** *** The settings tab *)

Section Tab.

Context {host : Host}.

Lemma onChange_data (e : TabEvent) (st : TabState) :
  data (onChange e st) = Some (saveSettings (tabSettings (onChange e st))).
Proof.
  unfold onChange.
  destruct e as [v|v|v|v|b]; try reflexivity; now destruct (String.eqb v "").
Qed.

Lemma session_snoc (events : list TabEvent) (e : TabEvent) (st : TabState) :
  session (events ++ [e]) st = onChange e (session events st).
Proof. unfold session. now rewrite fold_left_app. Qed.

Lemma loadSettings_saveSettings (settings : CarryForwardPluginSettings) :
  loadSettings (Some (saveSettings settings)) = settings.
Proof. now destruct settings. Qed.

(** An invariant of the tab state that every callback keeps is kept by
    a session. *)
Lemma session_invariant (I : TabState -> Prop) (ok : TabEvent -> Prop) :
  (forall e st, ok e -> I st -> I (onChange e st)) ->
  forall events st, Forall ok events -> I st -> I (session events st).
Proof.
  intros Hstep. induction events as [|e events IH]; intros st Hok HI.
  - exact HI.
  - inversion Hok as [|? ? He Hrest]; subst.
    cbn [session fold_left]. apply IH; [assumption | now apply Hstep].
Qed.

End Tab.

End MoreFacts.

(* ================================================================== *)
(** ** Further properties of the code *)

Module Extras.

Import JsString RegExp StringFacts MatcherFacts LiteralFacts CarryForward PluginFacts.
Import PluginShell Vocabulary MoreFacts.

(** X1.  [genID(length)] returns exactly [length] characters, each a
    lowercase letter, a digit or a hyphen, whatever the random source
    answers. *)
Theorem genID_length_and_alphabet {host : Host} (length : nat) (g : Rng) :
  String.length (fst (genID length g)) = length
  /\ all CharClass.idAlphabet (fst (genID length g)) = true.
Proof. apply genID_spec. Qed.

(** X2.  A line that has just received a new block ID is recognised as
    anchored: [blockIDRegex] matches the rewritten line, and the match
    converts to the very [newID] that was appended. *)
Theorem minted_line_is_recognised {host : Host} (line : string) (g : Rng) :
  let newID := "^" ++ fst (genID 5 g) in
  exists blockID,
    match_ (replace line (exec trailingSpace) (" " ++ newID)) (exec blockIDRegex)
    = Some blockID
    /\ toString blockID = newID.
Proof.
  intros newID. unfold newID, match_.
  destruct (genID_spec 5 g) as [Hlen Hall].
  change (" " ++ "^" ++ fst (genID 5 g)) with (" ^" ++ fst (genID 5 g)).
  rewrite replace_trailingSpace by apply genID_plain.
  change (trimEndOf CharClass.space line ++ " ^" ++ fst (genID 5 g))
    with (trimEndOf CharClass.space line
          ++ String " " (String "^" (fst (genID 5 g)))).
  rewrite exec_blockIDRegex.
  - eexists. split; reflexivity.
  - reflexivity.
  - intros E. rewrite E in Hlen. discriminate.
  - apply (all_impl CharClass.idAlphabet); [exact idAlphabet_blockIdChar | exact Hall].
Qed.

(** X3.  [blockIDRegex] matches a line exactly when the line ends with a
    caret followed by one or more letters, digits or hyphens, and the
    caret follows a white space character or another caret. *)
Theorem blockIDRegex_matches_iff (line : string) :
  match_ line (exec blockIDRegex) <> None
  <-> exists pre c tok,
        line = pre ++ String c (String "^" tok)
        /\ CharClass.spaceOrCaret c = true
        /\ tok <> ""
        /\ all CharClass.blockIdChar tok = true.
Proof.
  unfold match_. split.
  - intros H. destruct (exec blockIDRegex line) as [m|] eqn:E; [|congruence].
    apply exec_blockIDRegex_inv in E as (pre & c & tok & Hl & Hc & Hne & Htok & _).
    now exists pre, c, tok.
  - intros (pre & c & tok & -> & Hc & Hne & Htok).
    now rewrite exec_blockIDRegex.
Qed.

(** X4.  The string that [validateRegex] compiles has no backslash left
    in front of an [n], a [t] or an [r], and rewriting it again changes
    nothing. *)
Theorem updatedRegexString_idempotent (regexString : string) :
  let updated := updatedRegexString regexString in
  noEscape "n" updated = true
  /\ noEscape "t" updated = true
  /\ noEscape "r" updated = true
  /\ updatedRegexString updated = updated.
Proof.
  intros updated.
  set (N := unescape "n" (ascii_of_nat 10) regexString).
  set (T := unescape "t" (ascii_of_nat 9) N).
  assert (HnN : noEscape "n" N = true)
    by (apply (noEscape_unescape "n" "n" _ (String.length regexString));
        [reflexivity | reflexivity | apply le_n | now left]).
  assert (HnT : noEscape "n" T = true)
    by (apply (noEscape_unescape "n" "t" _ (String.length N));
        [reflexivity | reflexivity | apply le_n | now right]).
  assert (Hn : noEscape "n" updated = true)
    by (apply (noEscape_unescape "n" "r" _ (String.length T));
        [reflexivity | reflexivity | apply le_n | now right]).
  assert (HtT : noEscape "t" T = true)
    by (apply (noEscape_unescape "t" "t" _ (String.length N));
        [reflexivity | reflexivity | apply le_n | now left]).
  assert (Ht : noEscape "t" updated = true)
    by (apply (noEscape_unescape "t" "r" _ (String.length T));
        [reflexivity | reflexivity | apply le_n | now right]).
  assert (Hr : noEscape "r" updated = true)
    by (apply (noEscape_unescape "r" "r" _ (String.length T));
        [reflexivity | reflexivity | apply le_n | now left]).
  repeat split; try assumption.
  unfold updatedRegexString at 1.
  now rewrite (unescape_noEscape "n" _ _ Hn), (unescape_noEscape "t" _ _ Ht),
    (unescape_noEscape "r" _ _ Hr).
Qed.

Section CopySlice.

Variable editor : Editor.

(** X5.  When part of one line is selected, the copy slice is the selected
    text: the characters from the start column to the end column. *)
Theorem partial_selection_copies_selected_text (settings : CarryForwardPluginSettings) :
  line (cursorFrom editor) = line (cursorTo editor) ->
  ch (cursorFrom editor) < ch (cursorTo editor) ->
  ch (cursorTo editor) <= String.length (getLine editor (minLine editor)) ->
  copySlice editor settings (minLine editor)
  = take (ch (cursorTo editor) - ch (cursorFrom editor))
         (drop (ch (cursorFrom editor)) (getLine editor (minLine editor)))
  /\ String.length (copySlice editor settings (minLine editor))
     = ch (cursorTo editor) - ch (cursorFrom editor).
Proof.
  intros Hline Hlt Hle.
  assert (Hs : copySlice editor settings (minLine editor)
               = take (ch (cursorTo editor) - ch (cursorFrom editor))
                      (drop (ch (cursorFrom editor)) (getLine editor (minLine editor)))).
  { unfold copySlice, sameColumn, maxLine, minLine in *.
    rewrite <- Hline, !Nat.eqb_refl.
    replace (ch (cursorFrom editor) =? ch (cursorTo editor)) with false
      by (symmetry; apply Nat.eqb_neq; lia).
    rewrite !andb_false_r. cbn [orb andb negb].
    rewrite slice_nat, !Nat.min_l by lia. reflexivity. }
  split; [exact Hs|].
  rewrite Hs, length_take, length_drop. lia.
Qed.

(** X6.  The setting [removeLeadingWhitespace] matters only when the
    cursor stands on a line with nothing selected: for every other
    selection the copy slice of every line is the same whatever the
    settings. *)
Theorem leading_whitespace_kept_in_selections
        (settings settings' : CarryForwardPluginSettings) (lineNumber : nat) :
  cursorFrom editor <> cursorTo editor ->
  copySlice editor settings lineNumber = copySlice editor settings' lineNumber.
Proof.
  intros Hne.
  assert (Hopen : (minLine editor =? maxLine editor) && sameColumn editor = false).
  { destruct ((minLine editor =? maxLine editor) && sameColumn editor) eqn:E;
      [exfalso | reflexivity].
    apply andb_true_iff in E as [El Ec].
    unfold minLine, maxLine, sameColumn in *.
    apply Nat.eqb_eq in El, Ec. apply Hne.
    destruct (cursorFrom editor), (cursorTo editor). simpl in *. congruence. }
  unfold copySlice. rewrite Hopen. cbn [negb]. rewrite !andb_true_r.
  destruct (lineNumber =? minLine editor) eqn:Emin; cbn [orb andb].
  - reflexivity.
  - rewrite !andb_false_r. reflexivity.
Qed.

(** X7.  Whatever the selection and the settings, the copy slice of a
    line is a piece of that line: nothing is ever copied that the line
    does not contain, in that order and without gaps. *)
Theorem copy_slice_is_part_of_line
        (settings : CarryForwardPluginSettings) (lineNumber : nat) :
  exists before after,
    getLine editor lineNumber
    = before ++ copySlice editor settings lineNumber ++ after.
Proof.
  unfold copySlice.
  destruct (((lineNumber =? minLine editor) || (lineNumber =? maxLine editor))
            && negb ((minLine editor =? maxLine editor) && sameColumn editor)).
  - apply slice_within.
  - destruct (removeLeadingWhitespace settings
              && ((lineNumber =? minLine editor) && sameColumn editor)).
    + rewrite replace_leadingSpace.
      set (l := getLine editor lineNumber).
      exists (take (String.length l - String.length (trimStartOf CharClass.space l)) l), "".
      rewrite append_nil_r. rewrite <- (drop_trimStart CharClass.space l) at 2.
      now rewrite take_drop.
    + exists "", "". cbn [append]. now rewrite append_nil_r.
Qed.

End CopySlice.

Section Loop.

Context {host : Host}.

Variable editor : Editor.
Variable file : TFile.
Variable settings : CarryForwardPluginSettings.
Variable copy : CopyTypes.

(** X8.  Which selected lines the transaction rewrites: line
    [minLine + k] receives a new block ID, and then differs from what it
    was, exactly when the block that looks for a block ID runs on it (the
    line is not a blank line of a selection of several lines, and the
    mode is SeparateLines or the line is the first one) and
    [blockIDRegex] does not match it.  Every other selected line is put
    back as it was. *)
Theorem rewritten_exactly_where_minted (g : Rng) :
  PatternCompiles settings ->
  minLine editor <= maxLine editor ->
  exists updated copied g',
    copyForwardLines editor file settings copy g
    = Applied
        (join LF copied)
        (mkTransaction
           [mkChange (mkPos (minLine editor) 0)
                     (mkPos (maxLine editor)
                            (String.length (getLine editor (maxLine editor))))
                     (join LF updated)]
           (cursorFrom editor, cursorTo editor))
        g'
    /\ List.length updated = maxLine editor - minLine editor + 1
    /\ forall k,
         k <= maxLine editor - minLine editor ->
         if mints editor copy (minLine editor + k)
         then Minted (getLine editor (minLine editor + k)) (nth k updated "")
              /\ nth k updated "" <> getLine editor (minLine editor + k)
         else nth k updated "" = getLine editor (minLine editor + k).
Proof.
  intros Hc Hle.
  destruct (copyForwardLines_applied editor file settings copy g Hc)
    as (st & Hloop & Hout).
  set (P := fun n u =>
              if mints editor copy n
              then Minted (getLine editor n) u /\ u <> getLine editor n
              else u = getLine editor n).
  assert (Hstep : forall n s s',
             forLine editor file settings copy n s = Normal s' ->
             exists u, updatedLines s' = (updatedLines s ++ [u])%list /\ P n u).
  { intros n s s' Hn. apply forLine_exact in Hn. unfold P.
    destruct (mints editor copy n); destruct Hn as (Hu & _);
      eexists; (split; [exact Hu|]); [|reflexivity].
    assert (Hm : Minted (getLine editor n)
                        (trimEndOf CharClass.space (getLine editor n)
                         ++ " ^" ++ fst (genID 5 (rng s))))
      by (apply trimEnd_minted; apply genID_spec).
    split; [exact Hm | exact (Minted_neq _ _ Hm)]. }
  destruct (forLines_appends editor file settings copy updatedLines P Hstep
                             _ _ _ _ Hloop) as (us & Hus & Hlen & Hall).
  simpl in Hus.
  exists us, (copiedLines st), (rng st). rewrite Hout, Hus.
  repeat split; try lia.
  intros k Hk. apply Hall. lia.
Qed.

(** X9.  Outside SeparateLines mode only the first selected line can
    change: the transaction puts back every later line as it was, the
    first line receives a new block ID exactly when the block that looks
    for one runs on it and finds none, and the random source is used for
    that one block ID at most. *)
Theorem only_first_line_changes_outside_separate_mode (g : Rng) :
  isSeparateLines copy = false ->
  PatternCompiles settings ->
  minLine editor <= maxLine editor ->
  let first :=
    if mints editor copy (minLine editor)
    then trimEndOf CharClass.space (getLine editor (minLine editor))
         ++ " ^" ++ fst (genID 5 g)
    else getLine editor (minLine editor) in
  let rest :=
    map (getLine editor) (seq (S (minLine editor)) (maxLine editor - minLine editor)) in
  exists copied,
    copyForwardLines editor file settings copy g
    = Applied
        (join LF copied)
        (mkTransaction
           [mkChange (mkPos (minLine editor) 0)
                     (mkPos (maxLine editor)
                            (String.length (getLine editor (maxLine editor))))
                     (join LF (first :: rest))]
           (cursorFrom editor, cursorTo editor))
        (if mints editor copy (minLine editor) then snd (genID 5 g) else g).
Proof.
  intros Hmode Hc Hle first rest.
  destruct (copyForwardLines_applied editor file settings copy g Hc)
    as (st & Hloop & Hout).
  replace (maxLine editor + 1 - minLine editor)
    with (S (maxLine editor - minLine editor)) in Hloop by lia.
  cbn [forLines] in Hloop.
  destruct (forLine editor file settings copy (minLine editor) (mkLoop [] [] "" g))
    as [stm|e] eqn:E; cbn [bind] in Hloop; [|discriminate].
  apply forLine_exact in E. cbn [updatedLines rng newID app] in E.
  destruct (forLines_rest_kept editor file settings copy _ Hmode _ _ _
                               (Nat.lt_succ_diag_r _) Hloop) as (Hu & Hr & _).
  exists (copiedLines st). rewrite Hout, Hu, Hr. unfold first, rest.
  destruct (mints editor copy (minLine editor));
    destruct E as (-> & -> & _); reflexivity.
Qed.

(** X10.  Carrying the same selection forward a second time changes the
    document no further: once the transaction of a first call has been
    applied, a second call on the same selection replaces the selected
    lines by themselves and makes no new block ID, whatever the mode. *)
Theorem second_run_changes_nothing (g : Rng) :
  PatternCompiles settings ->
  minLine editor <= maxLine editor ->
  exists updated copied g',
    copyForwardLines editor file settings copy g
    = Applied
        (join LF copied)
        (mkTransaction
           [mkChange (mkPos (minLine editor) 0)
                     (mkPos (maxLine editor)
                            (String.length (getLine editor (maxLine editor))))
                     (join LF updated)]
           (cursorFrom editor, cursorTo editor))
        g'
    /\ List.length updated = maxLine editor - minLine editor + 1
    /\ forall editor' g2,
         showsUpdated editor editor' updated ->
         exists copied2,
           copyForwardLines editor' file settings copy g2
           = Applied
               (join LF copied2)
               (mkTransaction
                  [mkChange (mkPos (minLine editor) 0)
                            (mkPos (maxLine editor)
                                   (String.length (getLine editor' (maxLine editor))))
                            (join LF updated)]
                  (cursorFrom editor, cursorTo editor))
               g2.
Proof.
  intros Hc Hle.
  destruct (copyForwardLines_applied editor file settings copy g Hc)
    as (st & Hloop & Hout).
  destruct (forLines_updated_extends editor file settings copy _ _ _ _ Hloop)
    as (us & Hus & Hlen).
  exists us, (copiedLines st), (rng st).
  split; [rewrite Hout, Hus; reflexivity|].
  split; [lia|].
  intros editor' g2 (Hfrom & Hto & Hlines).
  destruct (forLines_rerun editor file settings copy editor' Hfrom Hto (proj1 Hc)
                           _ _ _ _ us Hloop Hus) with (st2 := mkLoop [] [] "" g2)
    as (st2 & Hloop2 & Hus2 & Hrng2).
  { intros k Hk. apply Hlines. lia. }
  exists (copiedLines st2).
  unfold copyForwardLines. destruct Hc as [_ ->]. cbn [negb].
  unfold minLine, maxLine in *. rewrite Hfrom, Hto, Hloop2, Hus2, Hrng2.
  reflexivity.
Qed.

(** X11.  The transaction never changes the number of lines of the
    document: if no selected line holds a line feed, which is what an
    editor hands out, then none of the lines that replace them holds
    one, and there are as many of them as lines selected. *)
Theorem updated_lines_hold_no_line_feed (g : Rng) :
  PatternCompiles settings ->
  minLine editor <= maxLine editor ->
  (forall n, minLine editor <= n <= maxLine editor ->
             has lineFeed (getLine editor n) = false) ->
  exists updated copied g',
    copyForwardLines editor file settings copy g
    = Applied
        (join LF copied)
        (mkTransaction
           [mkChange (mkPos (minLine editor) 0)
                     (mkPos (maxLine editor)
                            (String.length (getLine editor (maxLine editor))))
                     (join LF updated)]
           (cursorFrom editor, cursorTo editor))
        g'
    /\ List.length updated = maxLine editor - minLine editor + 1
    /\ forall u, In u updated -> has lineFeed u = false.
Proof.
  intros Hc Hle Hclean.
  destruct (copyForwardLines_applied editor file settings copy g Hc)
    as (st & Hloop & Hout).
  set (P := fun n u => has lineFeed (getLine editor n) = false
                       -> has lineFeed u = false).
  assert (Hstep : forall n s s',
             forLine editor file settings copy n s = Normal s' ->
             exists u, updatedLines s' = (updatedLines s ++ [u])%list /\ P n u).
  { intros n s s' Hn. unfold P.
    destruct (forLine_updated editor file settings copy _ _ _ Hn)
      as (u & Hu & [Hsame|Hm]); exists u; (split; [exact Hu|]);
      [now rewrite Hsame|].
    destruct Hm as (body & ws & id & -> & _ & _ & -> & _ & Hid).
    rewrite !has_append. intros H. apply orb_false_iff in H as [-> _].
    cbn [orb]. change (has lineFeed " ^") with false. cbn [orb].
    apply has_all with (p := CharClass.idAlphabet); [reflexivity | exact Hid]. }
  destruct (forLines_appends editor file settings copy updatedLines P Hstep
                             _ _ _ _ Hloop) as (us & Hus & Hlen & Hall).
  simpl in Hus.
  exists us, (copiedLines st), (rng st). rewrite Hout, Hus.
  repeat split; try lia.
  intros u Hin. destruct (In_nth _ _ "" Hin) as (k & Hk & <-).
  apply (Hall k); [lia|]. apply Hclean. lia.
Qed.

(** X12.  When lines are copied (SeparateLines and CombinedLines), the
    setting [copiedLinkText] is not read: changing it changes neither
    the clipboard, nor the transaction, nor the use of the random
    source. *)
Theorem copied_link_text_unread_when_lines_are_copied (value : string) (g : Rng) :
  isLinkOnly copy || isLinkOnlyEmbed copy = false ->
  copyForwardLines editor file (setCopiedLinkText value settings) copy g
  = copyForwardLines editor file settings copy g.
Proof.
  intros Hmode. unfold copyForwardLines.
  now rewrite forLines_copiedLinkText.
Qed.

(** X13.  When only a link is copied (LinkOnly and LinkOnlyEmbed), the
    settings [lineFormatTo] and [removeLeadingWhitespace] are not read:
    changing them changes nothing of the outcome. *)
Theorem transform_settings_unread_when_link_is_copied
        (to : string) (b : bool) (g : Rng) :
  isLinkOnly copy || isLinkOnlyEmbed copy = true ->
  copyForwardLines editor file
                   (setLineFormatTo to (setRemoveLeadingWhitespace b settings)) copy g
  = copyForwardLines editor file settings copy g.
Proof.
  intros Hmode. unfold copyForwardLines.
  now rewrite forLines_linkOnly_settings.
Qed.

(** X14.  Copying a link to a single line: in the link-only modes, with
    the selection on one line and a From pattern that validates, the
    clipboard receives the rendered link alone and the line is the only
    text replaced.  If [blockIDRegex] matches the line, the link names
    the block ID found, the line is put back as it is and the random
    source is not used; otherwise the link names a new block ID of five
    characters, which the line receives after its trailing white space
    is removed, even when the line is blank. *)
Theorem link_to_a_single_line (g : Rng) :
  isLinkOnly copy || isLinkOnlyEmbed copy = true ->
  minLine editor = maxLine editor ->
  valid (validateRegex (lineFormatFrom settings)) = true ->
  let line := getLine editor (minLine editor) in
  let render := fun link =>
    if isLinkOnlyEmbed copy then "!" ++ link
    else fillPlaceholder (copiedLinkText settings) link in
  let transaction := fun text =>
    mkTransaction
      [mkChange (mkPos (minLine editor) 0)
                (mkPos (minLine editor) (String.length line))
                text]
      (cursorFrom editor, cursorTo editor) in
  copyForwardLines editor file settings copy g
  = match match_ line (exec blockIDRegex) with
    | Some blockID =>
        Applied
          (render (generateMarkdownLink file "/" ("#" ++ toString blockID)
                                        (linkText settings)))
          (transaction line)
          g
    | None =>
        Applied
          (render (generateMarkdownLink file "/" ("#^" ++ fst (genID 5 g))
                                        (linkText settings)))
          (transaction (trimEndOf CharClass.space line ++ " ^" ++ fst (genID 5 g)))
          (snd (genID 5 g))
    end.
Proof.
  intros Hmode Heq Hvalid line render transaction.
  unfold copyForwardLines. rewrite Hvalid. cbn [negb].
  rewrite <- Heq.
  replace (minLine editor + 1 - minLine editor) with 1 by lia.
  cbn [forLines].
  assert (Hp : passesThrough editor (minLine editor) = false).
  { unfold passesThrough. rewrite <- Heq, Nat.eqb_refl. cbn [andb negb].
    apply andb_false_r. }
  assert (Hl : isSeparateLines copy || (minLine editor =? minLine editor) = true)
    by (rewrite Nat.eqb_refl; apply orb_true_r).
  unfold forLine. rewrite Hp, Hl, Nat.eqb_refl, andb_false_r. cbn [negb].
  fold line. unfold match_.
  destruct (exec blockIDRegex line) as [m|] eqn:Hm.
  - unfold linkStep, match_. rewrite Hm.
    rewrite copiedText_linkOnly by assumption. reflexivity.
  - rewrite linkStep_mint by exact Hm.
    rewrite copiedText_linkOnly by assumption. reflexivity.
Qed.

(** X15.  In CombinedLines mode a selection of several lines whose first
    line is blank gets no link at all: the clipboard receives the copy
    slices of the selected lines, the transaction puts every line back
    as it was, and the random source is not used. *)
Theorem blank_first_line_gets_no_link (g : Rng) :
  valid (validateRegex (lineFormatFrom settings)) = true ->
  minLine editor < maxLine editor ->
  all CharClass.space (getLine editor (minLine editor)) = true ->
  let selected := seq (minLine editor) (maxLine editor + 1 - minLine editor) in
  copyForwardLines editor file settings CombinedLines g
  = Applied
      (join LF (map (copySlice editor settings) selected))
      (mkTransaction
         [mkChange (mkPos (minLine editor) 0)
                   (mkPos (maxLine editor)
                          (String.length (getLine editor (maxLine editor))))
                   (join LF (map (getLine editor) selected))]
         (cursorFrom editor, cursorTo editor))
      g.
Proof.
  intros Hvalid Hlt Hblank selected. unfold selected.
  unfold copyForwardLines. rewrite Hvalid. cbn [negb].
  replace (maxLine editor + 1 - minLine editor)
    with (S (maxLine editor - minLine editor)) by lia.
  cbn [forLines].
  assert (Hp : passesThrough editor (minLine editor) = true).
  { unfold passesThrough, match_. rewrite exec_blankLine, Hblank, Nat.eqb_refl.
    replace (minLine editor =? maxLine editor) with false
      by (symmetry; apply Nat.eqb_neq; lia).
    reflexivity. }
  rewrite forLine_passes by exact Hp. cbn [bind].
  rewrite forLines_combined_rest by (reflexivity || lia).
  reflexivity.
Qed.

End Loop.

(** X16.  The rule of the placeholder: in a template that holds
    [{{LINK]suffix[}}] once, with no brace before it and no closing brace
    after it, the placeholder is replaced by the link, whose closing
    brackets move behind the suffix.  This holds for a link that ends
    with two closing brackets and holds no dollar sign. *)
Theorem placeholder_receives_link (pre suffix post body : string) :
  has "{" pre = false ->
  all CharClass.dot suffix = true ->
  has "}" post = false ->
  has "$" body = false ->
  fillPlaceholder (pre ++ "{{LINK" ++ suffix ++ "}}" ++ post) (body ++ "]]")
  = pre ++ body ++ suffix ++ "]]" ++ post.
Proof. apply fillPlaceholder_rule. Qed.

(** X17.  A template without an opening brace holds no placeholder: it
    is returned as it is and the link is lost, whatever the link. *)
Theorem template_without_placeholder_drops_link (template link : string) :
  has "{" template = false ->
  fillPlaceholder template link = template.
Proof.
  intros H. unfold fillPlaceholder, replace, exec, linkPlaceholder.
  change (Lits "{{LINK") with (Lits (String "{" "{LINK")).
  now rewrite search_without.
Qed.

Section Settings.

Context {host : Host}.

(** X18.  What [saveSettings] writes, [loadSettings] reads back
    unchanged; with nothing saved, [loadSettings] gives the default
    settings; and saving what was loaded from data with missing keys,
    then loading again, gives the same settings. *)
Theorem settings_survive_save_and_load (settings : CarryForwardPluginSettings)
        (stored : StoredSettings) :
  loadSettings (Some (saveSettings settings)) = settings
  /\ loadSettings None = DEFAULT_SETTINGS
  /\ loadSettings (Some (saveSettings (loadSettings (Some stored))))
     = loadSettings (Some stored).
Proof.
  split; [apply loadSettings_saveSettings|].
  split; [reflexivity | apply loadSettings_saveSettings].
Qed.

(** X19.  The settings tab saves after every change: once a callback of
    the tab has run, the saved data are the settings in effect, so that
    loading them gives those settings back. *)
Theorem tab_saves_settings_in_effect (events : list TabEvent) (st : TabState) :
  events <> [] ->
  loadSettings (data (session events st)) = tabSettings (session events st).
Proof.
  intros Hne.
  destruct (exists_last Hne) as (es & e & ->).
  rewrite session_snoc, onChange_data. apply loadSettings_saveSettings.
Qed.

(** X20.  The settings tab never leaves the From or the To field empty:
    if neither is empty when the tab opens, neither is after any
    sequence of changes, an emptied field falling back to its default. *)
Theorem tab_keeps_from_and_to_non_empty (events : list TabEvent) (st : TabState) :
  lineFormatFrom (tabSettings st) <> "" ->
  lineFormatTo (tabSettings st) <> "" ->
  lineFormatFrom (tabSettings (session events st)) <> ""
  /\ lineFormatTo (tabSettings (session events st)) <> "".
Proof.
  intros Hfrom Hto.
  apply (session_invariant
           (fun st => lineFormatFrom (tabSettings st) <> ""
                      /\ lineFormatTo (tabSettings st) <> "")
           (fun _ => True)).
  - clear. intros e st _ [Hfrom Hto]. unfold onChange.
    destruct e as [v|v|v|v|b]; try (split; assumption).
    + destruct (String.eqb_spec v ""); (split; [|exact Hto]);
        [discriminate | assumption].
    + destruct (String.eqb_spec v ""); (split; [exact Hfrom|]);
        [discriminate | assumption].
  - apply Forall_forall. now intros.
  - now split.
Qed.

(** X21.  As long as the From field is not emptied, the From/To row
    carries the class [invalid] exactly when the From pattern in effect
    does not validate, from [display] on and after every change. *)
Theorem invalid_class_follows_from_pattern
        (settings : CarryForwardPluginSettings) (saved : option StoredSettings)
        (events : list TabEvent) :
  neverClearsFrom events ->
  let st := session events (display settings saved) in
  invalid st = negb (valid (validateRegex (lineFormatFrom (tabSettings st)))).
Proof.
  intros Hnever.
  apply (session_invariant
           (fun st => invalid st
                      = negb (valid (validateRegex (lineFormatFrom (tabSettings st)))))
           (fun e => match e with FromChanged value => value <> "" | _ => True end)).
  - clear. intros e st Hok HI. unfold onChange.
    destruct e as [v|v|v|v|b]; try exact HI.
    + destruct (String.eqb_spec v ""); [contradiction|].
      cbn [invalid tabSettings setLineFormatFrom lineFormatFrom].
      now destruct (valid (validateRegex v)).
    + now destruct (String.eqb v "").
  - exact Hnever.
  - cbn [display invalid tabSettings].
    now destruct (valid (validateRegex (lineFormatFrom settings))).
Qed.

(** X22.  Emptying the From field puts the default pattern back but
    leaves the class of the row as it was: after a pattern that does not
    validate, the row stays marked [invalid] although the pattern in
    effect is the default one. *)
Theorem emptied_from_field_keeps_invalid_class
        (settings : CarryForwardPluginSettings) (saved : option StoredSettings)
        (value : string) :
  value <> "" ->
  valid (validateRegex value) = false ->
  let st := session [FromChanged value; FromChanged ""] (display settings saved) in
  invalid st = true
  /\ lineFormatFrom (tabSettings st) = lineFormatFrom DEFAULT_SETTINGS.
Proof.
  intros Hne Hbad. cbn [session fold_left]. unfold onChange at 2.
  destruct (String.eqb_spec value ""); [contradiction|].
  rewrite Hbad. split; reflexivity.
Qed.

End Settings.

(** *** The properties on the deterministic host *)

Import TestHost Fixtures.

Lemma default_settings_compile : PatternCompiles DEFAULT_SETTINGS.
Proof. split; [eexists; reflexivity | reflexivity]. Defined.

Lemma partial_selection_copies_selected_text_witness :
  line (cursorFrom anchorSelectedEditor) = line (cursorTo anchorSelectedEditor)
  /\ ch (cursorFrom anchorSelectedEditor) < ch (cursorTo anchorSelectedEditor)
  /\ ch (cursorTo anchorSelectedEditor)
     <= String.length (getLine anchorSelectedEditor (minLine anchorSelectedEditor))
  /\ copySlice anchorSelectedEditor DEFAULT_SETTINGS (minLine anchorSelectedEditor)
     = take (ch (cursorTo anchorSelectedEditor) - ch (cursorFrom anchorSelectedEditor))
            (drop (ch (cursorFrom anchorSelectedEditor))
                  (getLine anchorSelectedEditor (minLine anchorSelectedEditor)))
  /\ String.length
       (copySlice anchorSelectedEditor DEFAULT_SETTINGS (minLine anchorSelectedEditor))
     = ch (cursorTo anchorSelectedEditor) - ch (cursorFrom anchorSelectedEditor).
Proof.
  split; [reflexivity|].
  split; [vm_compute; lia|].
  split; [vm_compute; lia|].
  apply (partial_selection_copies_selected_text anchorSelectedEditor DEFAULT_SETTINGS).
  - reflexivity.
  - vm_compute; lia.
  - vm_compute; lia.
Defined.

Lemma leading_whitespace_kept_in_selections_witness :
  cursorFrom fooBarEditor <> cursorTo fooBarEditor
  /\ copySlice fooBarEditor DEFAULT_SETTINGS 0
     = copySlice fooBarEditor (setRemoveLeadingWhitespace false DEFAULT_SETTINGS) 0.
Proof.
  split; [discriminate|].
  apply (leading_whitespace_kept_in_selections fooBarEditor). discriminate.
Defined.

Lemma rewritten_exactly_where_minted_witness :
  PatternCompiles DEFAULT_SETTINGS
  /\ minLine gapEditor <= maxLine gapEditor
  /\ exists updated copied g',
       copyForwardLines gapEditor "note" DEFAULT_SETTINGS SeparateLines 0
       = Applied (join LF copied)
                 (mkTransaction
                    [mkChange (mkPos 0 0) (mkPos 2 3) (join LF updated)]
                    (mkPos 0 0, mkPos 2 3))
                 g'
       /\ List.length updated = 3
       /\ forall k, k <= 2 ->
                    if mints gapEditor SeparateLines (0 + k)
                    then Minted (getLine gapEditor (0 + k)) (nth k updated "")
                         /\ nth k updated "" <> getLine gapEditor (0 + k)
                    else nth k updated "" = getLine gapEditor (0 + k).
Proof.
  split; [exact default_settings_compile|].
  split; [vm_compute; lia|].
  apply (rewritten_exactly_where_minted (host := host) gapEditor "note" DEFAULT_SETTINGS
                                        SeparateLines 0).
  - exact default_settings_compile.
  - vm_compute; lia.
Defined.

Lemma only_first_line_changes_outside_separate_mode_witness :
  isSeparateLines CombinedLines = false
  /\ PatternCompiles DEFAULT_SETTINGS
  /\ minLine fooBarEditor <= maxLine fooBarEditor
  /\ exists copied,
       copyForwardLines fooBarEditor "note" DEFAULT_SETTINGS CombinedLines 0
       = Applied (join LF copied)
                 (mkTransaction
                    [mkChange (mkPos 0 0) (mkPos 1 3) (join LF ["foo ^abcde"; "bar"])]
                    (mkPos 0 0, mkPos 1 3))
                 5.
Proof.
  split; [reflexivity|].
  split; [exact default_settings_compile|].
  split; [vm_compute; lia|].
  apply (only_first_line_changes_outside_separate_mode
           (host := host) fooBarEditor "note" DEFAULT_SETTINGS CombinedLines 0).
  - reflexivity.
  - exact default_settings_compile.
  - vm_compute; lia.
Defined.

Lemma second_run_changes_nothing_witness :
  PatternCompiles DEFAULT_SETTINGS
  /\ minLine fooBarEditor <= maxLine fooBarEditor
  /\ exists updated copied g',
       copyForwardLines fooBarEditor "note" DEFAULT_SETTINGS SeparateLines 0
       = Applied (join LF copied)
                 (mkTransaction
                    [mkChange (mkPos 0 0) (mkPos 1 3) (join LF updated)]
                    (mkPos 0 0, mkPos 1 3))
                 g'
       /\ List.length updated = 2
       /\ forall editor' g2,
            showsUpdated fooBarEditor editor' updated ->
            exists copied2,
              copyForwardLines editor' "note" DEFAULT_SETTINGS SeparateLines g2
              = Applied (join LF copied2)
                        (mkTransaction
                           [mkChange (mkPos 0 0)
                                     (mkPos 1 (String.length (getLine editor' 1)))
                                     (join LF updated)]
                           (mkPos 0 0, mkPos 1 3))
                        g2.
Proof.
  split; [exact default_settings_compile|].
  split; [vm_compute; lia|].
  apply (second_run_changes_nothing (host := host) fooBarEditor "note" DEFAULT_SETTINGS
                                    SeparateLines 0).
  - exact default_settings_compile.
  - vm_compute; lia.
Defined.

(** The two runs on the deterministic host, spelled out. *)
Example second_run_on_anchored_lines :
  copyForwardLines fooBarEditor "note" DEFAULT_SETTINGS SeparateLines 0
  = Applied (join LF ["fo (see [[note#^abcde]])"; "bar (see [[note#^fghij]])"])
            (mkTransaction
               [mkChange (mkPos 0 0) (mkPos 1 3) (join LF ["foo ^abcde"; "bar ^fghij"])]
               (mkPos 0 0, mkPos 1 3))
            10
  /\ showsUpdated fooBarEditor fooBarAnchoredEditor ["foo ^abcde"; "bar ^fghij"]
  /\ copyForwardLines fooBarAnchoredEditor "note" DEFAULT_SETTINGS SeparateLines 10
     = Applied (join LF ["foo (see [[note#^abcde]])"; "bar (see [[note#^fghij]])"])
               (mkTransaction
                  [mkChange (mkPos 0 0) (mkPos 1 10)
                            (join LF ["foo ^abcde"; "bar ^fghij"])]
                  (mkPos 0 0, mkPos 1 3))
               10.
Proof.
  split; [reflexivity|]. split; [|reflexivity].
  split; [reflexivity|]. split; [reflexivity|].
  intros [|[|k]] _; reflexivity.
Qed.

Lemma updated_lines_hold_no_line_feed_witness :
  PatternCompiles DEFAULT_SETTINGS
  /\ minLine gapEditor <= maxLine gapEditor
  /\ (forall n, minLine gapEditor <= n <= maxLine gapEditor ->
                has lineFeed (getLine gapEditor n) = false)
  /\ exists updated copied g',
       copyForwardLines gapEditor "note" DEFAULT_SETTINGS SeparateLines 0
       = Applied (join LF copied)
                 (mkTransaction
                    [mkChange (mkPos 0 0) (mkPos 2 3) (join LF updated)]
                    (mkPos 0 0, mkPos 2 3))
                 g'
       /\ List.length updated = 3
       /\ forall u, In u updated -> has lineFeed u = false.
Proof.
  assert (Hclean : forall n, minLine gapEditor <= n <= maxLine gapEditor ->
                             has lineFeed (getLine gapEditor n) = false)
    by (intros [|[|[|[|n]]]] _; reflexivity).
  split; [exact default_settings_compile|].
  split; [vm_compute; lia|].
  split; [exact Hclean|].
  apply (updated_lines_hold_no_line_feed (host := host) gapEditor "note" DEFAULT_SETTINGS
                                         SeparateLines 0).
  - exact default_settings_compile.
  - vm_compute; lia.
  - exact Hclean.
Defined.

Lemma copied_link_text_unread_when_lines_are_copied_witness :
  isLinkOnly SeparateLines || isLinkOnlyEmbed SeparateLines = false
  /\ copyForwardLines itemEditor "note"
                      (setCopiedLinkText "[[elsewhere]]" DEFAULT_SETTINGS) SeparateLines 0
     = copyForwardLines itemEditor "note" DEFAULT_SETTINGS SeparateLines 0.
Proof.
  split; [reflexivity|].
  apply (copied_link_text_unread_when_lines_are_copied
           (host := host) itemEditor "note" DEFAULT_SETTINGS SeparateLines).
  reflexivity.
Defined.

Lemma transform_settings_unread_when_link_is_copied_witness :
  isLinkOnly LinkOnly || isLinkOnlyEmbed LinkOnly = true
  /\ copyForwardLines itemEditor "note"
                      (setLineFormatTo "" (setRemoveLeadingWhitespace false DEFAULT_SETTINGS))
                      LinkOnly 0
     = copyForwardLines itemEditor "note" DEFAULT_SETTINGS LinkOnly 0.
Proof.
  split; [reflexivity|].
  apply (transform_settings_unread_when_link_is_copied
           (host := host) itemEditor "note" DEFAULT_SETTINGS LinkOnly).
  reflexivity.
Defined.

Lemma link_to_a_single_line_witness :
  isLinkOnly LinkOnly || isLinkOnlyEmbed LinkOnly = true
  /\ minLine fooEditor = maxLine fooEditor
  /\ valid (validateRegex (lineFormatFrom DEFAULT_SETTINGS)) = true
  /\ copyForwardLines fooEditor "note" DEFAULT_SETTINGS LinkOnly 0
     = Applied "(see [[note#^abcde]])"
               (mkTransaction [mkChange (mkPos 0 0) (mkPos 0 3) "foo ^abcde"]
                              (mkPos 0 0, mkPos 0 0))
               5.
Proof.
  repeat (split; [reflexivity|]).
  exact (link_to_a_single_line (host := host) fooEditor "note" DEFAULT_SETTINGS LinkOnly 0
                               eq_refl eq_refl eq_refl).
Defined.

Lemma blank_first_line_gets_no_link_witness :
  valid (validateRegex (lineFormatFrom DEFAULT_SETTINGS)) = true
  /\ minLine blankFirstEditor < maxLine blankFirstEditor
  /\ all CharClass.space (getLine blankFirstEditor (minLine blankFirstEditor)) = true
  /\ copyForwardLines blankFirstEditor "note" DEFAULT_SETTINGS CombinedLines 0
     = Applied (join LF [""; "foo"])
               (mkTransaction
                  [mkChange (mkPos 0 0) (mkPos 1 3) (join LF [""; "foo"])]
                  (mkPos 0 0, mkPos 1 3))
               0.
Proof.
  split; [reflexivity|].
  split; [vm_compute; lia|].
  split; [reflexivity|].
  apply (blank_first_line_gets_no_link (host := host) blankFirstEditor "note"
                                       DEFAULT_SETTINGS 0).
  - reflexivity.
  - vm_compute; lia.
  - reflexivity.
Defined.

Lemma placeholder_receives_link_witness :
  has "{" "(see " = false
  /\ all CharClass.dot "|source" = true
  /\ has "}" ")" = false
  /\ has "$" "[[note#^abcde" = false
  /\ fillPlaceholder "(see {{LINK|source}})" "[[note#^abcde]]"
     = "(see [[note#^abcde|source]])".
Proof.
  repeat (split; [reflexivity|]).
  exact (placeholder_receives_link "(see " "|source" ")" "[[note#^abcde"
                                   eq_refl eq_refl eq_refl eq_refl).
Defined.

Lemma template_without_placeholder_drops_link_witness :
  has "{" "see above" = false
  /\ fillPlaceholder "see above" "[[note#^abcde]]" = "see above".
Proof.
  split; [reflexivity|].
  exact (template_without_placeholder_drops_link "see above" "[[note#^abcde]]" eq_refl).
Defined.

Lemma tab_saves_settings_in_effect_witness :
  typingSession <> []
  /\ loadSettings (data (session typingSession (display DEFAULT_SETTINGS None)))
     = tabSettings (session typingSession (display DEFAULT_SETTINGS None)).
Proof.
  split; [discriminate|].
  apply (tab_saves_settings_in_effect (host := host)). discriminate.
Defined.

Lemma tab_keeps_from_and_to_non_empty_witness :
  lineFormatFrom (tabSettings (display DEFAULT_SETTINGS None)) <> ""
  /\ lineFormatTo (tabSettings (display DEFAULT_SETTINGS None)) <> ""
  /\ lineFormatFrom
       (tabSettings (session [FromChanged ""; ToChanged ""]
                             (display DEFAULT_SETTINGS None))) <> ""
  /\ lineFormatTo
       (tabSettings (session [FromChanged ""; ToChanged ""]
                             (display DEFAULT_SETTINGS None))) <> "".
Proof.
  split; [discriminate|].
  split; [discriminate|].
  apply (tab_keeps_from_and_to_non_empty (host := host)); discriminate.
Defined.

Lemma invalid_class_follows_from_pattern_witness :
  neverClearsFrom typingSession
  /\ invalid (session typingSession (display DEFAULT_SETTINGS None))
     = negb (valid (validateRegex
                      (lineFormatFrom
                         (tabSettings
                            (session typingSession (display DEFAULT_SETTINGS None)))))).
Proof.
  assert (Hnever : neverClearsFrom typingSession)
    by (repeat constructor; discriminate).
  split; [exact Hnever|].
  exact (invalid_class_follows_from_pattern (host := host) DEFAULT_SETTINGS None
                                            typingSession Hnever).
Defined.

Lemma emptied_from_field_keeps_invalid_class_witness :
  "[abc" <> ""
  /\ valid (validateRegex "[abc") = false
  /\ invalid (session [FromChanged "[abc"; FromChanged ""]
                      (display DEFAULT_SETTINGS None)) = true
  /\ lineFormatFrom
       (tabSettings (session [FromChanged "[abc"; FromChanged ""]
                             (display DEFAULT_SETTINGS None)))
     = lineFormatFrom DEFAULT_SETTINGS.
Proof.
  split; [discriminate|].
  split; [reflexivity|].
  apply (emptied_from_field_keeps_invalid_class (host := host) DEFAULT_SETTINGS None "[abc").
  - discriminate.
  - reflexivity.
Defined.

End Extras.
